(** * gnaf-loader: the CSV sanitizer and loader (csvloader.py, csvfixer.py)

    A shallow embedding of the two Python sources and the properties of
    the byte sanitizer, the header normalizer, the statement builders and
    the load pipeline.

    Python values are modelled as the code has them:
    - [bytes] is a list of [Byte.byte], compared as Python compares
      byte strings (equality, lexicographic order);
    - [str] is a list of Unicode code points ([N]);
    - an object is its attribute dictionary, a [gmap] from names to values;
    - the file system is a [gmap] from paths to file contents;
    - exceptions, the trace of external calls and the file system are
      threaded through a state-and-error monad. *)

From Stdlib Require Import NArith Strings.Byte Ascii String List Bool Lia.
From stdpp Require Import base option gmap strings list.

Local Open Scope N_scope.

(** ** Python strings *)

(** A Python 3 [str]: a sequence of code points. *)
Definition str : Type := list N.

(** A Python [bytes] object. *)
Definition bytes : Type := list byte.

(** The [str] spelled by an ASCII literal. *)
Definition py (s : string) : str :=
  map N_of_ascii (list_ascii_of_string s).

(** Code points that cannot be written inside a literal here. *)
Definition dquote : N := 34.
Definition underscore : N := 95.

(** [s.startswith(prefix)] *)
Fixpoint startswith (s prefix : str) {struct prefix} : bool :=
  match prefix, s with
  | [], _ => true
  | _ :: _, [] => false
  | p :: prefix', c :: s' => (c =? p) && startswith s' prefix'
  end.

(** [sep.join(parts)] *)
Fixpoint join (sep : str) (parts : list str) : str :=
  match parts with
  | [] => []
  | [x] => x
  | x :: rest => x ++ sep ++ join sep rest
  end.

(** The character class [0-9a-zA-Z] of the pattern in [_simplify_text]. *)
Definition is_alnum (c : N) : bool :=
  ((48 <=? c) && (c <=? 57)) || ((97 <=? c) && (c <=? 122))
  || ((65 <=? c) && (c <=? 90)).

(** [re.sub('[^0-9a-zA-Z]+', '_', text)]: scanning left to right, each
    match of the greedy pattern is a maximal run of characters outside the
    class and is replaced by one underscore. [in_run] tells that the
    previous character belonged to the run being replaced. *)
Fixpoint sub_runs (in_run : bool) (text : str) : str :=
  match text with
  | [] => []
  | c :: rest =>
      if is_alnum c then c :: sub_runs false rest
      else if in_run then sub_runs true rest
      else underscore :: sub_runs true rest
  end.

Definition re_sub_nonalnum (text : str) : str := sub_runs false text.

Definition is_ascii (c : N) : bool := c <? 128.

(** [str.lower()] on an ASCII character. *)
Definition ascii_lower (c : N) : N :=
  if (65 <=? c) && (c <=? 90) then c + 32 else c.

(** ** Python bytes *)

Fixpoint bytes_eqb (a b : bytes) : bool :=
  match a, b with
  | [], [] => true
  | x :: a', y :: b' => Byte.eqb x y && bytes_eqb a' b'
  | _, _ => false
  end.

(** [a > b] on byte strings: lexicographic on the unsigned byte values, a
    proper prefix being smaller. *)
Fixpoint bytes_gtb (a b : bytes) : bool :=
  match a, b with
  | [], _ => false
  | _ :: _, [] => true
  | x :: a', y :: b' =>
      if Byte.to_N y <? Byte.to_N x then true
      else if Byte.to_N x <? Byte.to_N y then false
      else bytes_gtb a' b'
  end.

(** ** Exceptions and diagnostics *)

Record exn := Exn { exn_class : string; exn_arg : string }.

Inductive result (A : Type) : Type :=
| Ok (a : A)
| Raise (e : exn).
Arguments Ok {A} a.
Arguments Raise {A} e.

Definition is_ok {A} (r : result A) : bool :=
  match r with Ok _ => true | Raise _ => false end.

Definition StopIteration : exn := Exn "StopIteration" "".
Definition AttributeError (name : string) : exn := Exn "AttributeError" name.
Definition TypeError (what : string) : exn := Exn "TypeError" what.
Definition IndexError (what : string) : exn := Exn "IndexError" what.
Definition FileNotFoundError : exn := Exn "FileNotFoundError" "".

(** The messages the two programs log or print, with the values they are
    formatted from. *)
Inductive message : Type :=
| MsgFoundC9
| MsgFound00
| MsgInvalidCharacter (code : N)
| MsgEndOfFile
| MsgGeneratedTableName (table_name : str)
| MsgConnecting
| MsgCreatingTable (table_name : str)
| MsgCorrectingFile (file_path : str)
| MsgLoadingData (table_name : str)
| MsgFinished (table_name : str)
| MsgStartedCopy (table_name file_path delimiter work_file : str)
| MsgCompletedCopy (table_name file_path : str).

Inductive level := Info | Warn.

(** Where a diagnostic goes: the logger named CsvLoader, or standard
    output. *)
Inductive diagnostic : Type :=
| Log (l : level) (m : message)
| Print (m : message).

(** ** The byte sanitizer *)

(** The two programs that contain the loop. *)
Inductive program := Loader | Fixer.

(** The branch of the [if]/[elif] chain taken for a chunk [c] that passed
    the [not c] test. *)
Inductive branch := Repair | DropNul | Invalid | Pass.

Definition branch_of (c : bytes) : branch :=
  if bytes_eqb c [xc9] then Repair
  else if bytes_eqb c [x00] then DropNul
  else if bytes_gtb c [xff] then Invalid
  else Pass.

(** [ord(c)] on a byte string. *)
Definition ord (c : bytes) : result N :=
  match c with
  | [b] => Ok (Byte.to_N b)
  | _ => Raise (TypeError "ord() expected a character")
  end.

(** One iteration of the loop body on a non-empty chunk: the bytes written
    to the output and the diagnostics emitted, or the exception raised. *)
Definition sanitize_chunk (p : program) (c : bytes)
  : result (bytes * list diagnostic) :=
  match branch_of c with
  | Repair =>
      Ok ([x65], [match p with
                  | Loader => Log Info MsgFoundC9
                  | Fixer => Print MsgFoundC9 end])
  | DropNul =>
      Ok ([], [match p with
               | Loader => Log Info MsgFound00
               | Fixer => Print MsgFound00 end])
  | Invalid =>
      match ord c with
      | Raise e => Raise e
      | Ok code =>
          Ok ([], [match p with
                   | Loader => Log Warn (MsgInvalidCharacter code)
                   | Fixer => Print (MsgInvalidCharacter code) end])
      end
  | Pass => Ok (c, [])
  end.

(** What a run of the loop leaves behind: the bytes written, the
    diagnostics, and the exception that ended it, if any. *)
Record loop_run := LoopRun {
  written : bytes;
  diagnostics : list diagnostic;
  raised : option exn
}.

(** The [while True] loop. [input] is the unread part of the stream:
    [input.read(1)] returns the one-byte string [[b]] and leaves [rest], or
    returns the empty string at the end of the file, where [not c] breaks
    out of the loop. *)
Fixpoint sanitize_loop (p : program) (input : bytes) : loop_run :=
  match input with
  | [] =>
      LoopRun [] match p with
                 | Loader => []
                 | Fixer => [Print MsgEndOfFile] end None
  | b :: rest =>
      match sanitize_chunk p [b] with
      | Raise e => LoopRun [] [] (Some e)
      | Ok (out, ds) =>
          let r := sanitize_loop p rest in
          LoopRun (out ++ written r) (ds ++ diagnostics r) (raised r)
      end
  end.

(** The per-byte policy the specification gives for the sanitizer, as a
    function of one byte. *)
Definition sanitize_byte (b : byte) : bytes :=
  if Byte.eqb b xc9 then [x65]
  else if Byte.eqb b x00 then []
  else [b].

Definition count_nul (input : bytes) : nat :=
  length (List.filter (fun b => Byte.eqb b x00) input).

(** ** Python objects *)

Inductive pyval : Type :=
| VNone
| VBool (b : bool)
| VStr (s : str).

(** [str(v)], as [str.format] renders an argument of a [{}] field. *)
Definition to_str (v : pyval) : str :=
  match v with
  | VNone => py "None"
  | VBool true => py "True"
  | VBool false => py "False"
  | VStr s => s
  end.

(** The truth value of an object. *)
Definition truthy (v : pyval) : bool :=
  match v with
  | VNone => false
  | VBool b => b
  | VStr s => negb (bool_decide (s = []))
  end.

(** [a or b] *)
Definition py_or (a b : pyval) : pyval := if truthy a then a else b.

(** [a + b] *)
Definition py_add (a b : pyval) : result pyval :=
  match a, b with
  | VStr x, VStr y => Ok (VStr (x ++ y))
  | _, _ => Raise (TypeError "unsupported operand type(s) for +")
  end.

Definition opt_str (o : option str) : pyval :=
  match o with Some s => VStr s | None => VNone end.

(** [template.format(args)] for templates whose replacement fields are all
    the automatically numbered [{}], which is what the statements of
    [CsvLoader] use. A field with no argument left raises [IndexError];
    arguments left over are ignored. *)
Fixpoint format (template : str) (args : list pyval) : result str :=
  match template with
  | [] => Ok []
  | c :: t =>
      match t with
      | d :: t' =>
          if (c =? 123) && (d =? 125) then
            match args with
            | [] => Raise (IndexError "Replacement index out of range")
            | a :: args' =>
                match format t' args' with
                | Ok out => Ok (to_str a ++ out)
                | Raise e => Raise e
                end
            end
          else
            match format t args with
            | Ok out => Ok (c :: out)
            | Raise e => Raise e
            end
      | [] => Ok [c]
      end
  end.

(** The class attributes of [CsvLoader]. *)
Definition DEFAULT_DELIMITER : str := py ",".
Definition DEFAULT_QUOTE_CHAR : str := [dquote].
Definition DEFAULT_TABLE_PREFIX : str := py "csv_".
Definition DEFAULT_DATA_TYPE : str := py "varchar".
Definition CREATE_STMT : str := py "CREATE TABLE IF NOT EXISTS {} ({});".
Definition COPY_STMT : str :=
  py "COPY {} ({}) FROM stdin WITH CSV HEADER DELIMITER '{}' QUOTE '{}' ESCAPE '{}'".

Definition class_dict : gmap string pyval :=
  <["DEFAULT_DELIMITER" := VStr DEFAULT_DELIMITER]>
  (<["DEFAULT_QUOTE_CHAR" := VStr DEFAULT_QUOTE_CHAR]>
  (<["DEFAULT_ESCAPE_CHAR" := VNone]>
  (<["DEFAULT_TABLE_PREFIX" := VStr DEFAULT_TABLE_PREFIX]>
  (<["DEFAULT_DOUBLE_QUOTE" := VBool true]>
  (<["DEFAULT_DATA_TYPE" := VStr DEFAULT_DATA_TYPE]>
  (<["CREATE_STMT" := VStr CREATE_STMT]>
  (<["COPY_STMT" := VStr COPY_STMT]> ∅))))))).

(** [CsvLoader(connection_string)]: the instance dictionary [__init__]
    leaves behind. *)
Definition CsvLoader (connection_string : pyval) : gmap string pyval :=
  <["_connection_string" := connection_string]> ∅.

(** [self.name]: the instance dictionary first, then the class. *)
Definition getattr (self : gmap string pyval) (name : string) : result pyval :=
  match self !! name with
  | Some v => Ok v
  | None =>
      match class_dict !! name with
      | Some v => Ok v
      | None => Raise (AttributeError name)
      end
  end.

(** [v.format(args)]: only a [str] has the method. *)
Definition call_format (v : pyval) (args : list pyval) : result str :=
  match v with
  | VStr template => format template args
  | _ => Raise (AttributeError "format")
  end.

(** ** Paths *)

(** [s.rfind(ch) + 1], scanning with [i] the index of the head of [s] and
    [found] the result so far. *)
Fixpoint after_last (ch : N) (s : str) (i found : nat) : nat :=
  match s with
  | [] => found
  | c :: rest => after_last ch rest (S i) (if c =? ch then S i else found)
  end.

(** [os.path.basename] (posixpath). *)
Definition basename (p : str) : str := drop (after_last 47 p 0 0) p.

(** [os.path.splitext] (posixpath): the extension starts at the last dot of
    the last component, unless only dots precede it there. *)
Definition splitext (p : str) : str * str :=
  let sep1 := after_last 47 p 0 0 in
  let dot1 := after_last 46 p 0 0 in
  if bool_decide (sep1 < dot1)%nat
     && negb (forallb (N.eqb 46) (take (dot1 - 1 - sep1) (drop sep1 p)))
  then (take (dot1 - 1) p, drop (dot1 - 1) p)
  else (p, []).

(** ** The world outside the program *)

Inductive store_call : Type :=
| Connect (connection_string : pyval)
| Cursor
| Execute (statement : str)
| Commit
| CursorClose
| CopyExpert (command : str) (data : bytes)
| Close.

(** What the program does that can be observed from outside: diagnostics,
    the construction of the CSV reader with its dialect, and the calls on
    the store, each with the exception it raised, if any. *)
Inductive event : Type :=
| EvDiag (d : diagnostic)
| EvCsvReader (delimiter quotechar : str) (escapechar : option str)
| EvStore (c : store_call) (outcome : option exn).

Inductive open_mode :=
| TextRead (encoding : str)
| BinaryRead
| BinaryWrite.

(** The collaborators the program calls and does not define: the codecs
    and the operating system behind [open], the [csv] module, [tempfile]
    and the database driver. Each is a function of what the program hands
    it; the store also sees the history of the run. *)
Record Env := {
  (** the error [open(path, mode)] raises for a reason other than a
      missing file: permissions, an unknown encoding, ... *)
  open_error : gmap str bytes -> str -> open_mode -> option exn;
  (** the text a file opened in text mode delivers, or the decoding error *)
  read_text : str -> bytes -> result str;
  (** the error [csv.reader] raises for a dialect it rejects *)
  csv_reader_error : str -> str -> option str -> option exn;
  (** the first record [csv.reader] parses from a non-empty text *)
  csv_first_record : str -> str -> option str -> str -> result (list str);
  (** [tempfile.mktemp(suffix, prefix)] *)
  mktemp : gmap str bytes -> str -> str -> str;
  (** the exception a call on the store raises, if any *)
  store_outcome : list event -> store_call -> option exn
}.

Record state := State {
  fs : gmap str bytes;
  trace : list event
}.

(** ** The monad of the pipeline: state and exceptions *)

Definition M (A : Type) : Type := state -> result A * state.

#[export] Instance M_ret : MRet M := fun A a st => (Ok a, st).

#[export] Instance M_bind : MBind M := fun A B k m st =>
  match m st with
  | (Ok a, st') => k a st'
  | (Raise e, st') => (Raise e, st')
  end.

Definition lift {A} (r : result A) : M A := fun st => (r, st).

Definition emit (e : event) : M unit := fun st =>
  (Ok tt, State (fs st) (trace st ++ [e])).

Definition diag (d : diagnostic) : M unit := emit (EvDiag d).

(** A list comprehension whose element expression may raise. *)
Fixpoint comprehension {A B} (f : A -> result B) (l : list A)
  : result (list B) :=
  match l with
  | [] => Ok []
  | x :: rest =>
      match f x with
      | Raise e => Raise e
      | Ok y =>
          match comprehension f rest with
          | Raise e => Raise e
          | Ok ys => Ok (y :: ys)
          end
      end
  end.

(** ** The statements sent to the store *)

(** The list [columns] of [_create_table]. *)
Definition create_columns (self : gmap string pyval) (headers : list str)
  : result (list str) :=
  comprehension
    (fun column =>
       match getattr self "DEFAULT_DATA_TYPE" with
       | Raise e => Raise e
       | Ok data_type =>
           format ([dquote] ++ py "{}" ++ [dquote] ++ py " {}")
                  [VStr column; data_type]
       end) headers.

(** The statement [_create_table] executes. *)
Definition create_statement (self : gmap string pyval) (table_name : str)
    (headers : list str) : result str :=
  match create_columns self headers with
  | Raise e => Raise e
  | Ok columns =>
      let columns_def := join (py ",") columns in
      match getattr self "CREATE_STMT" with
      | Raise e => Raise e
      | Ok template =>
          call_format template [VStr table_name; VStr columns_def]
      end
  end.

(** The list [columns] of [_copy_from_csv]. *)
Definition copy_columns (headers : list str) : result (list str) :=
  comprehension
    (fun column => format ([dquote] ++ py "{}" ++ [dquote]) [VStr column])
    headers.

(** The command [_copy_from_csv] hands to [copy_expert]. *)
Definition copy_command (self : gmap string pyval) (table_name : str)
    (headers : list str) (delimiter quote_char : str)
    (escape_char : option str) : result str :=
  match copy_columns headers with
  | Raise e => Raise e
  | Ok columns =>
      let columns_def := join (py ",") columns in
      let copy_from_escape_char :=
        py_or (opt_str escape_char) (VStr quote_char) in
      match getattr self "COPY_STMT" with
      | Raise e => Raise e
      | Ok template =>
          call_format template
            [VStr table_name; VStr columns_def; VStr delimiter;
             VStr quote_char; copy_from_escape_char]
      end
  end.

(** The events a run added to the trace. *)
Definition new_events (before after : state) : list event :=
  drop (length (trace before)) (trace after).

Definition is_store_event (e : event) : bool :=
  match e with EvStore _ _ => true | _ => false end.

(** The connection was closed: a call of [close] that returned. *)
Definition is_closed (e : event) : bool :=
  match e with EvStore Close None => true | _ => false end.

(** ** An example world

    A world to run the pipeline in: files decoded as Latin-1 (a code point
    per byte), header rows without quote or escape characters, which
    [csv.reader] splits at the delimiter, and a store whose answers are
    given by [outcome]. *)

Fixpoint split_on (sep : N) (s : str) : list str :=
  match s with
  | [] => [[]]
  | c :: rest =>
      if c =? sep then [] :: split_on sep rest
      else match split_on sep rest with
           | field :: fields => (c :: field) :: fields
           | [] => [[c]]
           end
  end.

Fixpoint first_line (text : str) : str :=
  match text with
  | [] => []
  | c :: rest => if c =? 10 then [] else c :: first_line rest
  end.

Definition example_env (outcome : store_call -> option exn) : Env := {|
  open_error := fun _ _ _ => None;
  read_text := fun _ raw => Ok (map Byte.to_N raw);
  csv_reader_error := fun _ _ _ => None;
  csv_first_record := fun delimiter _ _ text =>
    Ok (split_on (hd 44 delimiter) (first_line text));
  mktemp := fun _ suffix prefix =>
    py "/tmp/" ++ prefix ++ py "k3x9q2vb" ++ suffix;
  store_outcome := fun _ c => outcome c
|}.

(** A store that accepts every call. *)
Definition accepting : store_call -> option exn := fun _ => None.

(** A store that rejects the statements it is asked to execute, as
    PostgreSQL rejects a statement with a zero-length identifier. *)
Definition rejecting_execute : store_call -> option exn := fun c =>
  match c with
  | Execute _ => Some (Exn "SyntaxError" "zero-length delimited identifier")
  | _ => None
  end.

(** A store in which the bulk copy fails, as it does when the table has
    not been created. *)
Definition rejecting_copy : store_call -> option exn := fun c =>
  match c with
  | CopyExpert _ _ => Some (Exn "UndefinedTable" "relation does not exist")
  | _ => None
  end.

(** A store that cannot be reached. *)
Definition rejecting_connect : store_call -> option exn := fun c =>
  match c with
  | Connect _ => Some (Exn "OperationalError" "connection refused")
  | _ => None
  end.

(** The bytes of a file with the header row [Na\xc9ve,###] and the data
    row [1,\x002]. *)
Definition names_csv : bytes :=
  [x4e; x61; xc9; x76; x65; x2c; x23; x23; x23; x0a; x31; x2c; x00; x32; x0a].

Definition example_fs : gmap str bytes :=
  <[py "/data/Names.csv" := names_csv]> (<[py "/data/empty.csv" := []]> ∅).

Definition example_state : state := State example_fs [].

Definition example_dsn : pyval := VStr (py "dbname=gnaf").

Definition names_path : str := py "/data/Names.csv".
Definition empty_path : str := py "/data/empty.csv".

(** The header row of [names_csv] as the reader returns it: the byte 0xC9
    decodes to the code point 201. *)
Definition names_headers : list str := [[78; 97; 201; 118; 101]; py "###"].

(** The runs below lower ASCII strings only, for which the case tables are
    not consulted. *)
Definition no_case_tables : str -> str := fun s => s.

Section Pipeline.

(** [str.lower()] on a string with characters outside ASCII follows the
    Unicode case tables, which are taken as given. *)
Variable unicode_lower : str -> str.

Variable env : Env.

Definition lower (s : str) : str :=
  if forallb is_ascii s then map ascii_lower s else unicode_lower s.

(** *** [CsvLoader._simplify_text] *)
Definition _simplify_text (text : str) : str :=
  let unified := lower (re_sub_nonalnum text) in
  if startswith unified [underscore] then drop 1 unified else unified.

(** *** [CsvLoader._normalize_headers] *)
Definition _normalize_headers (original_headers : list str) : list str :=
  map _simplify_text original_headers.

(** *** [CsvLoader._generate_table_name] *)
Definition _generate_table_name (self : gmap string pyval) (file_path : str)
  : result str :=
  let base := fst (splitext (basename file_path)) in
  match getattr self "_table_prefix" with
  | Raise e => Raise e
  | Ok prefix =>
      match py_add prefix (VStr (_simplify_text base)) with
      | Raise e => Raise e
      | Ok v => Ok (to_str v)
      end
  end.

(** *** Files and the store *)

(** [open(path, mode)]: the contents of the file as the handle will read
    them. Opening for writing creates the file or truncates it. *)
Definition open (path : str) (mode : open_mode) : M bytes := fun st =>
  match open_error env (fs st) path mode with
  | Some e => (Raise e, st)
  | None =>
      match mode with
      | BinaryWrite => (Ok [], State (<[path := []]> (fs st)) (trace st))
      | _ =>
          match fs st !! path with
          | Some content => (Ok content, st)
          | None => (Raise FileNotFoundError, st)
          end
      end
  end.

(** What has been written to [path] when the handle is closed. *)
Definition write_file (path : str) (content : bytes) : M unit := fun st =>
  (Ok tt, State (<[path := content]> (fs st)) (trace st)).

(** [tempfile.mktemp(suffix, prefix)]: a name chosen by looking at the file
    system. *)
Definition tempfile_mktemp (suffix prefix : str) : M str := fun st =>
  (Ok (mktemp env (fs st) suffix prefix), st).

(** A call on the store: recorded with its outcome, raising if it fails. *)
Definition store (c : store_call) : M unit := fun st =>
  let outcome := store_outcome env (trace st) c in
  (match outcome with Some e => Raise e | None => Ok tt end,
   State (fs st) (trace st ++ [EvStore c outcome])).

(** *** [CsvLoader._read_headers] *)
Definition _read_headers (file_path delimiter quote_char : str)
    (escape_char : option str) (encoding : str) : M (list str) :=
  csv_file ← open file_path (TextRead encoding);
  emit (EvCsvReader delimiter quote_char escape_char);;
  lift (match csv_reader_error env delimiter quote_char escape_char with
        | Some e => Raise e
        | None => Ok tt
        end);;
  text ← lift (read_text env encoding csv_file);
  lift (match text with
        | [] => Raise StopIteration
        | _ => csv_first_record env delimiter quote_char escape_char text
        end).

(** *** [CsvLoader._remove_invalid_characters] *)
Definition _remove_invalid_characters (file_path work_file_prefix : str)
  : M str :=
  work_file ← tempfile_mktemp (py ".csv") work_file_prefix;
  input ← open file_path BinaryRead;
  open work_file BinaryWrite;;
  (* a handle on the file just truncated reads nothing *)
  let input := if bool_decide (work_file = file_path) then [] else input in
  let run := sanitize_loop Loader input in
  foldr (fun d k => diag d;; k) (mret tt) (diagnostics run);;
  write_file work_file (written run);;
  match raised run with
  | Some e => lift (Raise e)
  | None => mret work_file
  end.

(** *** [CsvLoader._create_table] *)
Definition _create_table (self : gmap string pyval) (headers : list str)
    (table_name : str) : M unit :=
  columns ← lift (create_columns self headers);
  let columns_def := join (py ",") columns in
  store Cursor;;
  template ← lift (getattr self "CREATE_STMT");
  statement ← lift (call_format template [VStr table_name; VStr columns_def]);
  store (Execute statement);;
  store Commit;;
  store CursorClose.

(** *** [CsvLoader._copy_from_csv] *)
Definition _copy_from_csv (self : gmap string pyval)
    (work_file file_path table_name : str) (headers : list str)
    (delimiter quote_char : str) (escape_char : option str) (encoding : str)
  : M unit :=
  command ← lift (copy_command self table_name headers delimiter quote_char
                    escape_char);
  diag (Print (MsgStartedCopy table_name file_path delimiter work_file));;
  store Cursor;;
  csv_file ← open work_file (TextRead encoding);
  store (CopyExpert command csv_file);;
  store Commit;;
  diag (Print (MsgCompletedCopy table_name file_path)).

(** *** [CsvLoader.load_data] *)
Definition load_data (self : gmap string pyval) (file_path : str)
    (table_name : option str) (delimiter quote_char : str)
    (escape_char : option str) (create_table : bool)
    (encoding work_file_prefix : str) : M unit :=
  let escape_char :=
    if bool_decide (escape_char = Some quote_char) then None
    else escape_char in
  original_headers ←
    _read_headers file_path delimiter quote_char escape_char encoding;
  let headers := _normalize_headers original_headers in
  table_name ←
    match table_name with
    | None =>
        table_name ← lift (_generate_table_name self file_path);
        diag (Log Info (MsgGeneratedTableName table_name));;
        mret table_name
    | Some table_name => mret table_name
    end;
  diag (Log Info MsgConnecting);;
  connection_string ← lift (getattr self "_connection_string");
  store (Connect connection_string);;
  (if create_table then
     diag (Log Info (MsgCreatingTable table_name));;
     _create_table self headers table_name
   else mret tt);;
  diag (Log Info (MsgCorrectingFile file_path));;
  work_file ← _remove_invalid_characters file_path work_file_prefix;
  diag (Log Info (MsgLoadingData table_name));;
  _copy_from_csv self work_file file_path table_name headers delimiter
    quote_char escape_char encoding;;
  diag (Log Info (MsgFinished table_name));;
  store Close.

(** The value [load_data] rebinds [escape_char] to before it reads the
    header. *)
Definition header_escape_char (quote_char : str) (escape_char : option str)
  : option str :=
  if bool_decide (escape_char = Some quote_char) then None else escape_char.

(** ** csvfixer.py

    The script: its arguments, the name of the output file, chosen once,
    and the loop over the input files, each of which is sanitized into
    that one output file. *)

(** A line on standard output: the line that names the files, or a line
    of the sanitizer loop. *)
Inductive fixer_line : Type :=
| FileLine (file_name out_file_name : str)
| LoopLine (d : diagnostic).

(** What a run of the script leaves behind. *)
Record fixer_run := FixerRun {
  fixer_raised : option exn;
  fixer_files : gmap str bytes;
  fixer_stdout : list fixer_line
}.

(** The body of the [for] loop, for one input file. *)
Definition fixer_file (out_file_name file_name : str)
    (files : gmap str bytes) : fixer_run :=
  let banner := [FileLine file_name out_file_name] in
  match open file_name BinaryRead (State files []) with
  | (Raise e, _) => FixerRun (Some e) files banner
  | (Ok input, _) =>
      match open out_file_name BinaryWrite (State files []) with
      | (Raise e, _) => FixerRun (Some e) files banner
      | (Ok _, st) =>
          (* a handle on the file just truncated reads nothing *)
          let input :=
            if bool_decide (out_file_name = file_name) then [] else input in
          let run := sanitize_loop Fixer input in
          FixerRun (raised run)
                   (<[out_file_name := written run]> (fs st))
                   (banner ++ map LoopLine (diagnostics run))
      end
  end.

(** [for file_name in args.input: ...] *)
Fixpoint fixer_loop (out_file_name : str) (input : list str)
    (files : gmap str bytes) : fixer_run :=
  match input with
  | [] => FixerRun None files []
  | file_name :: rest =>
      let one := fixer_file out_file_name file_name files in
      match fixer_raised one with
      | Some e => one
      | None =>
          let more := fixer_loop out_file_name rest (fixer_files one) in
          FixerRun (fixer_raised more) (fixer_files more)
                   (fixer_stdout one ++ fixer_stdout more)
      end
  end.

(** The script, called with the input files and, perhaps, the option
    [--output-prefix], whose default is [out]. With no input file the
    argument parser exits with status 2. *)
Definition csvfixer (input : list str) (output_prefix : option str)
    (files : gmap str bytes) : fixer_run :=
  match input with
  | [] => FixerRun (Some (Exn "SystemExit" "2")) files []
  | _ =>
      let out_file_name :=
        mktemp env files (py ".csv") (default (py "out") output_prefix) in
      fixer_loop out_file_name input files
  end.

(** ** The vocabulary of the properties *)

(** The diagnostic of the branch for a byte above 0xFF. *)
Definition is_invalid_diagnostic (d : diagnostic) : bool :=
  match d with
  | Log _ (MsgInvalidCharacter _) | Print (MsgInvalidCharacter _) => true
  | _ => false
  end.

(** Strings in canonical form: characters of [0-9a-zA-Z_] only, no two
    underscores in a row and, when [after_us] holds, no underscore in
    front. *)
Fixpoint canonical (after_us : bool) (s : str) : bool :=
  match s with
  | [] => true
  | c :: rest =>
      if is_alnum c then canonical false rest
      else (c =? underscore) && negb after_us && canonical true rest
  end.

(** A column identifier between double quotes. *)
Definition quoted (column : str) : str := [dquote] ++ column ++ [dquote].

(** A quoted identifier followed by the column type. *)
Definition typed (quoted_column : str) : str :=
  quoted_column ++ py " " ++ DEFAULT_DATA_TYPE.

(** The value of [escape_char or quote_char]. *)
Definition copy_from_escape_char (quote_char : str) (escape_char : option str)
  : str :=
  to_str (py_or (opt_str escape_char) (VStr quote_char)).

(** [runs m Q]: from every state, [m] extends the trace by some events
    [new], and [Q] relates its result to them. *)
Definition runs {A} (m : M A) (Q : result A -> list event -> Prop) : Prop :=
  forall st, exists new, trace (m st).2 = trace st ++ new /\ Q (m st).1 new.

(** Every event [m] emits satisfies [P], whatever its result. *)
Definition emits {A} (m : M A) (P : event -> Prop) : Prop :=
  runs m (fun _ new => Forall P new).

(** The events of each method. *)
Definition read_headers_event (delimiter quote_char : str)
    (escape_char : option str) (e : event) : Prop :=
  e = EvCsvReader delimiter quote_char escape_char.

Definition is_diagnostic (e : event) : Prop :=
  match e with EvDiag _ => True | _ => False end.

Definition create_table_event (statement : result str) (e : event) : Prop :=
  match e with
  | EvStore Cursor _ | EvStore Commit _ | EvStore CursorClose _ => True
  | EvStore (Execute s) _ => statement = Ok s
  | _ => False
  end.

Definition copy_from_csv_event (command : result str) (e : event) : Prop :=
  match e with
  | EvDiag _ | EvStore Cursor _ | EvStore Commit _ => True
  | EvStore (CopyExpert c _) _ => command = Ok c
  | _ => False
  end.

(** Everything [load_data] runs before its last statement leaves the
    connection as it is. *)
Definition leaves_open (e : event) : Prop := is_closed e = false.

(** [m] has closed the connection exactly when it returns normally. *)
Definition closes {A} (m : M A) : Prop :=
  runs m (fun r new => existsb is_closed new = is_ok r).

(** The escape character the header is to be parsed with: none when the
    caller gave none or gave the quote character, else the one given. *)
Definition stated_header_escape (quote_char : str) (escape_char : option str)
  : option str :=
  match escape_char with
  | None => None
  | Some given => if bool_decide (given = quote_char) then None else Some given
  end.

(** The character the COPY command is to name after ESCAPE: the quote
    character in the same two cases, else the one given. *)
Definition stated_copy_escape (quote_char : str) (escape_char : option str)
  : str :=
  match escape_char with
  | None => quote_char
  | Some given => if bool_decide (given = quote_char) then quote_char else given
  end.

(** What the escape character resolution requires of an event. *)
Definition escape_resolved (delimiter quote_char : str)
    (escape_char : option str) (e : event) : Prop :=
  match e with
  | EvCsvReader _ _ escapechar =>
      escapechar = stated_header_escape quote_char escape_char
  | EvStore (CopyExpert command _) _ =>
      exists table_name columns_def,
        command
        = py "COPY " ++ table_name ++ py " (" ++ columns_def
          ++ py ") FROM stdin WITH CSV HEADER DELIMITER '" ++ delimiter
          ++ py "' QUOTE '" ++ quote_char
          ++ py "' ESCAPE '" ++ stated_copy_escape quote_char escape_char
          ++ py "'"
  | _ => True
  end.

(** The construction of the reader; a call of [copy_expert] that returned;
    a call of [connect]. *)
Definition is_reader_event (e : event) : Prop :=
  match e with EvCsvReader _ _ _ => True | _ => False end.

Definition is_copy_event (e : event) : Prop :=
  match e with EvStore (CopyExpert _ _) None => True | _ => False end.

(** When [m] returns normally, it has emitted an event satisfying [R]. *)
Definition ensures {A} (m : M A) (R : event -> Prop) : Prop :=
  runs m (fun r new => is_ok r = true -> Exists R new).

Definition is_connect_event (e : event) : Prop :=
  match e with EvStore (Connect _) _ => True | _ => False end.

(** A byte the sanitizer leaves as it is. *)
Definition is_clean (b : byte) : bool :=
  negb (Byte.eqb b xc9) && negb (Byte.eqb b x00).

(** The diagnostic of the loop of [p] for a byte it repairs or drops. *)
Definition diagnostic_of (p : program) (b : byte) : diagnostic :=
  let m := if Byte.eqb b xc9 then MsgFoundC9 else MsgFound00 in
  match p with Loader => Log Info m | Fixer => Print m end.

(** What the loop of [p] reports when it reaches the end of the file. *)
Definition end_of_file (p : program) : list diagnostic :=
  match p with Loader => [] | Fixer => [Print MsgEndOfFile] end.

(** The characters of a column name: digits, lower-case letters and the
    underscore. *)
Definition is_identifier_char (c : N) : bool :=
  ((48 <=? c) && (c <=? 57)) || ((97 <=? c) && (c <=? 122))
  || (c =? underscore).

Fixpoint no_double_underscore (s : str) : bool :=
  match s with
  | [] => true
  | c :: rest =>
      match rest with
      | d :: _ => negb ((c =? underscore) && (d =? underscore))
      | [] => true
      end && no_double_underscore rest
  end.

(** A sequence of calls on the store, each made when the one before has
    returned: the events it leaves, and the exception of the call that
    ended it, if any. [history] is the trace when the sequence starts. *)
Fixpoint call_sequence (env : Env) (history : list event)
    (calls : list store_call) : list event * option exn :=
  match calls with
  | [] => ([], None)
  | c :: rest =>
      let outcome := store_outcome env history c in
      let e := EvStore c outcome in
      match outcome with
      | Some err => ([e], Some err)
      | None =>
          let '(events, ended) := call_sequence env (history ++ [e]) rest in
          (e :: events, ended)
      end
  end.

Definition result_of (ended : option exn) : result unit :=
  match ended with Some err => Raise err | None => Ok tt end.

(** What [load_data] may ask of the store: a connection with the
    connection string of the loader, and no statement but a CREATE TABLE
    IF NOT EXISTS, and that one only when [create_table] is set. *)
Definition store_vocabulary (cs : pyval) (create_table : bool) (e : event)
  : Prop :=
  match e with
  | EvStore (Connect c) _ => c = cs
  | EvStore (Execute s) _ =>
      create_table = true /\
      exists rest, s = py "CREATE TABLE IF NOT EXISTS " ++ rest
  | _ => True
  end.

(** In the events [n], every event satisfying [C] has an event satisfying
    [G] somewhere before it. *)
Definition precedes (G C : event -> Prop) (n : list event) : Prop :=
  forall pre e post, n = pre ++ e :: post -> C e -> Exists G pre.

(** A call of [copy_expert], whatever its outcome. *)
Definition is_copy_call (e : event) : Prop :=
  match e with EvStore (CopyExpert _ _) _ => True | _ => False end.

(** Calls that have returned: [connect], the execution of a statement,
    [commit]. *)
Definition has_connected (e : event) : Prop :=
  match e with EvStore (Connect _) None => True | _ => False end.

Definition has_executed (e : event) : Prop :=
  match e with EvStore (Execute _) None => True | _ => False end.

Definition has_committed (e : event) : Prop :=
  match e with EvStore Commit None => True | _ => False end.

(** [m] leaves every file as it is. *)
Definition keeps_files {A : Type} (m : M A) : Prop :=
  forall st, fs (m st).2 = fs st.

(** [m] leaves every file as it is, but for the one whose name [name]
    gives from the file system [m] starts in. *)
Definition changes_only {A : Type} (name : gmap str bytes -> str) (m : M A)
  : Prop :=
  forall st,
    delete (name (fs st)) (fs (m st).2) = delete (name (fs st)) (fs st).

(** ** The byte sanitizer: properties *)

Lemma bytes_eqb_single (b b' : byte) : bytes_eqb [b] [b'] = Byte.eqb b b'.
Proof. simpl. apply andb_true_r. Qed.

(** A one-byte string is never greater than [b'\xff']. *)
Lemma single_byte_not_above_ff (b : byte) : bytes_gtb [b] [xff] = false.
Proof.
  pose proof (Byte.to_N_bounded b) as Hb.
  unfold bytes_gtb.
  change (Byte.to_N xff) with 255.
  destruct (N.ltb_spec 255 (Byte.to_N b)) as [Hgt | _]; [lia |].
  now destruct (Byte.to_N b <? 255).
Qed.

Lemma branch_of_single (b : byte) :
  branch_of [b] =
  if Byte.eqb b xc9 then Repair else if Byte.eqb b x00 then DropNul else Pass.
Proof.
  unfold branch_of.
  now rewrite !bytes_eqb_single, single_byte_not_above_ff.
Qed.

Lemma sanitize_chunk_single (p : program) (b : byte) :
  exists ds, sanitize_chunk p [b] = Ok (sanitize_byte b, ds).
Proof.
  unfold sanitize_chunk, sanitize_byte. rewrite branch_of_single.
  destruct (Byte.eqb b xc9); [eauto |].
  destruct (Byte.eqb b x00); eauto.
Qed.

Lemma sanitize_loop_written (p : program) (input : bytes) :
  raised (sanitize_loop p input) = None /\
  written (sanitize_loop p input) = concat (map sanitize_byte input).
Proof.
  induction input as [| b rest [IHr IHw]]; [done |].
  cbn [sanitize_loop].
  destruct (sanitize_chunk_single p b) as [ds ->].
  cbn. now rewrite IHr, IHw.
Qed.

Lemma sanitized_length (input : bytes) :
  (length (concat (map sanitize_byte input)) + count_nul input
   = length input)%nat.
Proof.
  unfold count_nul.
  induction input as [| b rest IH]; [done |].
  cbn [map concat List.filter]. rewrite length_app.
  unfold sanitize_byte at 1.
  destruct (Byte.eqb b xc9) eqn:Hc9.
  - apply Byte.byte_dec_bl in Hc9 as ->. cbn. lia.
  - destruct (Byte.eqb b x00); cbn; lia.
Qed.

(** C1. The sanitizer loop of both programs runs to the end of every input
    and writes the input bytes, each mapped on its own and in order: 0xC9
    becomes the byte of the letter e (0x65), 0x00 is dropped and every
    other byte is kept, so the output is as long as the input less its
    0x00 bytes. *)
Theorem sanitizer_maps_each_byte (p : program) (input : bytes) :
  let output := written (sanitize_loop p input) in
  raised (sanitize_loop p input) = None /\
  output = concat (map sanitize_byte input) /\
  sanitize_byte xc9 = [x65] /\
  sanitize_byte x00 = [] /\
  (forall b,
     sanitize_byte b
     = if Byte.eqb b xc9 then [x65] else if Byte.eqb b x00 then [] else [b]) /\
  length output = (length input - count_nul input)%nat /\
  (length output + count_nul input)%nat = length input.
Proof.
  destruct (sanitize_loop_written p input) as [Hr Hw].
  pose proof (sanitized_length input) as Hlen.
  cbn zeta. rewrite Hw.
  repeat split; try done; lia.
Qed.

Lemma sanitize_chunk_no_invalid (p : program) (b : byte) out ds :
  sanitize_chunk p [b] = Ok (out, ds) ->
  forallb (fun d => negb (is_invalid_diagnostic d)) ds = true.
Proof.
  unfold sanitize_chunk. rewrite branch_of_single.
  destruct (Byte.eqb b xc9); [destruct p; now intros [= <- <-] |].
  destruct (Byte.eqb b x00); [destruct p; now intros [= <- <-] |].
  now intros [= <- <-].
Qed.

Lemma sanitize_loop_no_invalid (p : program) (input : bytes) :
  forallb (fun d => negb (is_invalid_diagnostic d))
          (diagnostics (sanitize_loop p input)) = true.
Proof.
  induction input as [| b rest IH]; [now destruct p |].
  cbn [sanitize_loop].
  destruct (sanitize_chunk p [b]) as [[out ds] | e] eqn:E; [| done].
  cbn. rewrite forallb_app, IH, andb_true_r.
  eapply sanitize_chunk_no_invalid, E.
Qed.

(** C9. A chunk read from a byte stream is one byte, whose value is at most
    0xFF: the branch for a byte above 0xFF is never taken on it, the body
    of that branch would run without raising on any one-byte chunk, no
    iteration raises, and the loop ends normally on every input without
    having reported an invalid character. *)
Theorem invalid_branch_is_dead_and_safe :
  (forall b : byte,
     Byte.to_N b <= 255 /\
     bytes_gtb [b] [xff] = false /\
     branch_of [b]
     = if Byte.eqb b xc9 then Repair
       else if Byte.eqb b x00 then DropNul else Pass) /\
  (forall b : byte, exists code, ord [b] = Ok code) /\
  (forall p (b : byte), exists out ds, sanitize_chunk p [b] = Ok (out, ds)) /\
  (forall p input,
     raised (sanitize_loop p input) = None /\
     forallb (fun d => negb (is_invalid_diagnostic d))
             (diagnostics (sanitize_loop p input)) = true).
Proof.
  repeat split.
  - apply Byte.to_N_bounded.
  - apply single_byte_not_above_ff.
  - apply branch_of_single.
  - intros b. now exists (Byte.to_N b).
  - intros p b. destruct (sanitize_chunk_single p b) as [ds H]. eauto.
  - apply sanitize_loop_written.
  - apply sanitize_loop_no_invalid.
Qed.

(** The branch exists in the model: a chunk of two bytes can reach it, and
    there [ord] raises. [read(1)] never returns such a chunk. *)
Example invalid_branch_modelled :
  branch_of [xff; x00] = Invalid /\
  sanitize_chunk Loader [xff; x00]
  = Raise (TypeError "ord() expected a character").
Proof. now split. Qed.

(** ** The header normalizer: properties *)

(** Case analysis on every comparison of code points in sight. *)
Ltac code_point_cases :=
  repeat match goal with
    | |- context [(?a <=? ?b)%N] => destruct (N.leb_spec a b)
    | |- context [(?a <? ?b)%N] => destruct (N.ltb_spec a b)
    end;
  cbn in *; try done; try lia.

Lemma is_alnum_underscore : is_alnum underscore = false.
Proof. reflexivity. Qed.

Lemma sub_runs_canonical (u : bool) (s : str) :
  canonical u (sub_runs u s) = true.
Proof.
  revert u. induction s as [| c rest IH]; intros u; [done |].
  cbn [sub_runs]. destruct (is_alnum c) eqn:Hc.
  - cbn [canonical]. now rewrite Hc.
  - destruct u; [apply IH |].
    cbn [canonical]. rewrite is_alnum_underscore, N.eqb_refl. apply IH.
Qed.

Lemma sub_runs_fixes_canonical (u : bool) (s : str) :
  canonical u s = true -> sub_runs u s = s.
Proof.
  revert u. induction s as [| c rest IH]; intros u H; [done |].
  cbn [canonical] in H. cbn [sub_runs].
  destruct (is_alnum c).
  - f_equal. now apply IH.
  - apply andb_prop in H as [H Hrest]. apply andb_prop in H as [Hc Hu].
    apply N.eqb_eq in Hc as ->. destruct u; [done |].
    f_equal. now apply IH.
Qed.

Lemma canonical_weaken (u : bool) (s : str) :
  canonical u s = true -> canonical false s = true.
Proof.
  destruct s as [| c rest]; [done |]. cbn [canonical].
  destruct (is_alnum c); [done |].
  intros H. apply andb_prop in H as [H ->]. apply andb_prop in H as [-> _].
  done.
Qed.

Lemma is_alnum_ascii (c : N) : is_alnum c = true -> is_ascii c = true.
Proof. unfold is_alnum, is_ascii. code_point_cases. Qed.

Lemma canonical_ascii (u : bool) (s : str) :
  canonical u s = true -> forallb is_ascii s = true.
Proof.
  revert u. induction s as [| c rest IH]; intros u H; [done |].
  cbn [canonical] in H. cbn [forallb].
  destruct (is_alnum c) eqn:Hc.
  - rewrite (is_alnum_ascii c Hc). eauto.
  - apply andb_prop in H as [H Hrest]. apply andb_prop in H as [Hc' _].
    apply N.eqb_eq in Hc' as ->. cbn. eauto.
Qed.

Lemma is_alnum_lower (c : N) : is_alnum (ascii_lower c) = is_alnum c.
Proof. unfold ascii_lower, is_alnum. code_point_cases. Qed.

Lemma ascii_lower_underscore (c : N) :
  is_alnum c = false -> ascii_lower c = c.
Proof. unfold ascii_lower, is_alnum. code_point_cases. Qed.

Lemma ascii_lower_idem (c : N) : ascii_lower (ascii_lower c) = ascii_lower c.
Proof. unfold ascii_lower. code_point_cases. Qed.

Lemma canonical_map_lower (u : bool) (s : str) :
  canonical u s = true -> canonical u (map ascii_lower s) = true.
Proof.
  revert u. induction s as [| c rest IH]; intros u H; [done |].
  cbn [canonical map] in *. rewrite is_alnum_lower.
  destruct (is_alnum c) eqn:Hc; [eauto |].
  rewrite (ascii_lower_underscore c Hc).
  apply andb_prop in H as [-> Hrest]. cbn. eauto.
Qed.

(** On the output of the substitution, [lower] is the ASCII lowering. *)
Lemma lower_canonical (u : bool) (s : str) :
  canonical u s = true -> lower s = map ascii_lower s.
Proof. intros H. unfold lower. now rewrite (canonical_ascii u s H). Qed.

(** The shape of a simplified text: canonical with no underscore in
    front, and already in lower case. *)
Lemma _simplify_text_shape (text : str) :
  canonical true (_simplify_text text) = true /\
  map ascii_lower (_simplify_text text) = _simplify_text text.
Proof.
  unfold _simplify_text, re_sub_nonalnum.
  pose proof (sub_runs_canonical false text) as Hc.
  rewrite (lower_canonical _ _ Hc).
  apply canonical_map_lower in Hc.
  assert (Hl : map ascii_lower (map ascii_lower (sub_runs false text))
               = map ascii_lower (sub_runs false text)).
  { rewrite map_map. apply map_ext. intros. apply ascii_lower_idem. }
  destruct (map ascii_lower (sub_runs false text)) as [| c rest]; [done |].
  cbn [startswith]. rewrite andb_true_r.
  cbn [canonical] in Hc. injection Hl as Hl1 Hl2.
  destruct (N.eq_dec c underscore) as [-> | Hne].
  - rewrite N.eqb_refl. rewrite is_alnum_underscore in Hc. cbn in Hc. cbn [drop]. done.
  - apply N.eqb_neq in Hne as Hne'. rewrite Hne'.
    split; [| cbn [map]; congruence].
    cbn [canonical]. destruct (is_alnum c); [done |].
    exfalso. apply andb_prop in Hc as [Hc _]. apply andb_prop in Hc as [Hc _].
    apply N.eqb_eq in Hc. contradiction.
Qed.

Lemma _simplify_text_fixes_canonical (x : str) :
  canonical true x = true -> map ascii_lower x = x -> _simplify_text x = x.
Proof.
  intros Hc Hl. unfold _simplify_text, re_sub_nonalnum.
  rewrite (sub_runs_fixes_canonical false x (canonical_weaken _ _ Hc)).
  rewrite (lower_canonical _ _ Hc), Hl.
  destruct x as [| c rest]; [done |].
  cbn [startswith]. rewrite andb_true_r.
  destruct (N.eqb_spec c underscore) as [-> | _]; [| done].
  cbn [canonical] in Hc. now rewrite is_alnum_underscore in Hc.
Qed.

(** C4. The header normalization is idempotent: simplifying a simplified
    text changes nothing. *)
Theorem simplify_text_idempotent (x : str) :
  _simplify_text (_simplify_text x) = _simplify_text x.
Proof.
  destruct (_simplify_text_shape x) as [Hc Hl].
  now apply _simplify_text_fixes_canonical.
Qed.

(** C3. The normalized column list has as many entries as the raw header
    list, and its i-th entry is the normalization of the i-th raw header:
    nothing is reordered, merged, added or removed. *)
Theorem normalize_headers_pointwise (original_headers : list str) :
  length (_normalize_headers original_headers) = length original_headers /\
  forall i : nat,
    _normalize_headers original_headers !! i
    = _simplify_text <$> original_headers !! i.
Proof.
  unfold _normalize_headers. split.
  - apply length_map.
  - intros i. apply list_lookup_fmap.
Qed.


Example _simplify_text_ex1 : _simplify_text (py "1st Name!!") = py "1st_name_".
Proof. reflexivity. Qed.

Example _simplify_text_ex2 : _simplify_text (py "  Street--Name") = py "street_name".
Proof. reflexivity. Qed.

Example _simplify_text_ex3 : _simplify_text (py "###") = [].
Proof. reflexivity. Qed.

(** ** The statements: properties *)

Lemma copy_columns_quoted (headers : list str) :
  copy_columns headers = Ok (map quoted headers).
Proof.
  unfold copy_columns.
  induction headers as [| h rest IH]; [done |].
  cbn [comprehension map]. now rewrite IH.
Qed.

Lemma create_columns_typed (cs : pyval) (headers : list str) :
  create_columns (CsvLoader cs) headers = Ok (map typed (map quoted headers)).
Proof.
  unfold create_columns.
  induction headers as [| h rest IH]; [done |].
  cbn [comprehension map]. rewrite IH.
  change (getattr (CsvLoader cs) "DEFAULT_DATA_TYPE")
    with (Ok (VStr DEFAULT_DATA_TYPE)).
  cbn [format N.eqb Pos.eqb andb app dquote py map list_ascii_of_string
       N_of_ascii N_of_digits to_str].
  unfold typed, quoted. cbn [app].
  now rewrite <- !app_assoc, app_nil_r.
Qed.

Lemma create_statement_closed (cs : pyval) (table_name : str)
    (headers : list str) :
  create_statement (CsvLoader cs) table_name headers
  = Ok (py "CREATE TABLE IF NOT EXISTS " ++ table_name ++ py " ("
        ++ join (py ",") (map typed (map quoted headers)) ++ py ");").
Proof.
  unfold create_statement. rewrite create_columns_typed. reflexivity.
Qed.

Lemma copy_command_closed (cs : pyval) (table_name : str)
    (headers : list str) (delimiter quote_char : str)
    (escape_char : option str) :
  copy_command (CsvLoader cs) table_name headers delimiter quote_char
    escape_char
  = Ok (py "COPY " ++ table_name ++ py " ("
        ++ join (py ",") (map quoted headers)
        ++ py ") FROM stdin WITH CSV HEADER DELIMITER '" ++ delimiter
        ++ py "' QUOTE '" ++ quote_char
        ++ py "' ESCAPE '" ++ copy_from_escape_char quote_char escape_char
        ++ py "'").
Proof.
  unfold copy_command. rewrite copy_columns_quoted. reflexivity.
Qed.

(** C10. The CREATE TABLE statement and the COPY command are built from the
    same identifiers, each between double quotes, in the order of the
    headers and joined by commas; the CREATE list differs only by the
    column type appended to each entry. *)
Theorem create_and_copy_agree_on_columns (cs : pyval) (table_name : str)
    (headers : list str) (delimiter quote_char : str)
    (escape_char : option str) :
  let identifiers := map quoted headers in
  copy_columns headers = Ok identifiers /\
  create_columns (CsvLoader cs) headers = Ok (map typed identifiers) /\
  (forall i : nat,
     identifiers !! i = quoted <$> headers !! i /\
     map typed identifiers !! i = (fun h => typed (quoted h)) <$> headers !! i) /\
  create_statement (CsvLoader cs) table_name headers
  = Ok (py "CREATE TABLE IF NOT EXISTS " ++ table_name ++ py " ("
        ++ join (py ",") (map typed identifiers) ++ py ");") /\
  copy_command (CsvLoader cs) table_name headers delimiter quote_char
    escape_char
  = Ok (py "COPY " ++ table_name ++ py " ("
        ++ join (py ",") identifiers
        ++ py ") FROM stdin WITH CSV HEADER DELIMITER '" ++ delimiter
        ++ py "' QUOTE '" ++ quote_char
        ++ py "' ESCAPE '" ++ copy_from_escape_char quote_char escape_char
        ++ py "'").
Proof.
  cbn zeta. split; [apply copy_columns_quoted |].
  split; [apply create_columns_typed |].
  split; [| split; [apply create_statement_closed | apply copy_command_closed]].
  intros i. rewrite !list_lookup_fmap.
  split; [done |]. now destruct (headers !! i).
Qed.


(** ** A logic for runs of the pipeline *)

Lemma runs_new_events {A} (m : M A) Q (st : state) :
  runs m Q -> Q (m st).1 (new_events st (m st).2).
Proof.
  intros H. destruct (H st) as (new & Ht & HQ).
  unfold new_events. now rewrite Ht, drop_app_length.
Qed.

Lemma runs_weaken {A} (m : M A) (Q Q' : result A -> list event -> Prop) :
  runs m Q -> (forall r new, Q r new -> Q' r new) -> runs m Q'.
Proof.
  intros H HQ st. destruct (H st) as (new & Ht & Hn). eauto.
Qed.

Lemma runs_bind {A B} (m : M A) (k : A -> M B)
    (Q1 : result A -> list event -> Prop) (Q : result B -> list event -> Prop) :
  runs m Q1 ->
  (forall e n, Q1 (Raise e) n -> Q (Raise e) n) ->
  (forall a n1, Q1 (Ok a) n1 -> runs (k a) (fun r n2 => Q r (n1 ++ n2))) ->
  runs (m ≫= k) Q.
Proof.
  intros Hm Hraise Hk st. unfold mbind, M_bind.
  destruct (Hm st) as (n1 & Ht1 & HQ1).
  destruct (m st) as [[a | e] st1]; cbn [fst snd] in *.
  - destruct (Hk a n1 HQ1 st1) as (n2 & Ht2 & HQ2).
    exists (n1 ++ n2). split; [| done].
    now rewrite Ht2, Ht1, app_assoc.
  - exists n1. eauto.
Qed.

Lemma emits_weaken {A} (m : M A) (P P' : event -> Prop) :
  emits m P -> (forall e, P e -> P' e) -> emits m P'.
Proof.
  intros H HP. eapply runs_weaken; [exact H |].
  intros r new Hnew. cbn in *. eapply Forall_impl; eauto.
Qed.

Lemma emits_bind {A B} (m : M A) (k : A -> M B) (P : event -> Prop) :
  emits m P -> (forall a, emits (k a) P) -> emits (m ≫= k) P.
Proof.
  intros Hm Hk. eapply runs_bind; [exact Hm | done |].
  intros a n1 H1. eapply runs_weaken; [apply Hk |].
  intros r n2 H2. now apply Forall_app.
Qed.

Lemma emits_ret {A} (a : A) P : emits (mret a : M A) P.
Proof. intros st. exists []. now rewrite app_nil_r. Qed.

Lemma emits_lift {A} (r : result A) P : emits (lift r) P.
Proof. intros st. exists []. now rewrite app_nil_r. Qed.

(** A lifted computation in front: the continuation runs on its value. *)
Lemma emits_bind_lift {A B} (r : result A) (k : A -> M B) P :
  (forall a, r = Ok a -> emits (k a) P) -> emits (lift r ≫= k) P.
Proof.
  intros Hk. destruct r as [a | e].
  - apply (Hk a eq_refl).
  - intros st. exists []. now rewrite app_nil_r.
Qed.

Lemma emits_emit (e : event) (P : event -> Prop) : P e -> emits (emit e) P.
Proof. intros He st. exists [e]. cbn. eauto. Qed.

Lemma emits_diag (d : diagnostic) (P : event -> Prop) :
  P (EvDiag d) -> emits (diag d) P.
Proof. apply emits_emit. Qed.

Lemma emits_store (c : store_call) (P : event -> Prop) :
  (forall o, P (EvStore c o)) -> emits (store c) P.
Proof. intros Hc st. eexists [_]. cbn. eauto. Qed.

Lemma emits_open (path : str) (mode : open_mode) P : emits (open path mode) P.
Proof.
  intros st. exists []. rewrite app_nil_r. split; [| done].
  unfold open. repeat case_match; done.
Qed.

Lemma emits_mktemp (suffix prefix : str) P :
  emits (tempfile_mktemp suffix prefix) P.
Proof. intros st. exists []. now rewrite app_nil_r. Qed.

Lemma emits_write_file (path : str) (content : bytes) P :
  emits (write_file path content) P.
Proof. intros st. exists []. now rewrite app_nil_r. Qed.

Lemma emits_diagnostics (ds : list diagnostic) (P : event -> Prop) :
  (forall d, P (EvDiag d)) ->
  emits (foldr (fun d k => diag d;; k) (mret tt) ds) P.
Proof.
  intros HP. induction ds as [| d ds IH]; [apply emits_ret |].
  cbn [foldr]. apply emits_bind; [now apply emits_diag | done].
Qed.

(** The strategy for a sequence of statements: one rule per statement. *)
Ltac emits_step :=
  lazymatch goal with
  | |- emits (lift _ ≫= _) _ => apply emits_bind_lift; intros ? ?
  | |- emits (_ ≫= _) _ => apply emits_bind; [| intros ?]
  | |- emits (mret _) _ => apply emits_ret
  | |- emits (lift _) _ => apply emits_lift
  | |- emits (diag _) _ => apply emits_diag
  | |- emits (emit _) _ => apply emits_emit
  | |- emits (store _) _ => apply emits_store; intros ?
  | |- emits (open _ _) _ => apply emits_open
  | |- emits (write_file _ _) _ => apply emits_write_file
  | |- emits (tempfile_mktemp _ _) _ => apply emits_mktemp
  | |- emits (foldr _ _ _) _ => apply emits_diagnostics; intros ?
  | |- emits (match ?x with _ => _ end) _ => destruct x
  end.

(** *** What each method emits *)

Lemma _read_headers_emits file_path delimiter quote_char escape_char encoding :
  emits (_read_headers file_path delimiter quote_char escape_char encoding)
        (read_headers_event delimiter quote_char escape_char).
Proof. unfold _read_headers. repeat emits_step; done. Qed.

Lemma _remove_invalid_characters_emits file_path work_file_prefix :
  emits (_remove_invalid_characters file_path work_file_prefix) is_diagnostic.
Proof. unfold _remove_invalid_characters. repeat emits_step; done. Qed.

Lemma _create_table_emits cs headers table_name :
  emits (_create_table (CsvLoader cs) headers table_name)
        (create_table_event
           (create_statement (CsvLoader cs) table_name headers)).
Proof.
  unfold _create_table, create_statement.
  emits_step. rewrite H. repeat emits_step; try done.
  cbn. now rewrite H0.
Qed.

Lemma _copy_from_csv_emits cs work_file file_path table_name headers delimiter
    quote_char escape_char encoding :
  emits (_copy_from_csv (CsvLoader cs) work_file file_path table_name headers
           delimiter quote_char escape_char encoding)
        (copy_from_csv_event
           (copy_command (CsvLoader cs) table_name headers delimiter
              quote_char escape_char)).
Proof. unfold _copy_from_csv. repeat emits_step; done. Qed.


(** *** The connection *)

Lemma open_keeps_trace path mode st : trace (open path mode st).2 = trace st.
Proof. unfold open. repeat case_match; done. Qed.

Lemma existsb_leaves_open (n : list event) :
  Forall leaves_open n -> existsb is_closed n = false.
Proof.
  induction 1 as [| e n He _ IH]; [done |]. cbn. now rewrite He, IH.
Qed.

Lemma closes_bind {A B} (m : M A) (k : A -> M B) :
  emits m leaves_open -> (forall a, closes (k a)) -> closes (m ≫= k).
Proof.
  intros Hm Hk. eapply runs_bind; [exact Hm | |].
  - intros e n Hn. now apply existsb_leaves_open.
  - intros a n1 Hn1. eapply runs_weaken; [apply Hk |].
    intros r n2 Hn2. cbn in *.
    now rewrite existsb_app, (existsb_leaves_open n1 Hn1).
Qed.

Lemma closes_bind_lift {A B} (r : result A) (k : A -> M B) :
  (forall a, r = Ok a -> closes (k a)) -> closes (lift r ≫= k).
Proof.
  intros Hk. destruct r as [a | e].
  - apply (Hk a eq_refl).
  - intros st. exists []. now rewrite app_nil_r.
Qed.

Lemma closes_store_Close : closes (store Close).
Proof.
  intros st. eexists [_]. split; [reflexivity |].
  cbn. now destruct (store_outcome env (trace st) Close).
Qed.

Lemma load_data_closes cs file_path table_name delimiter quote_char
    escape_char create_table encoding work_file_prefix :
  closes (load_data (CsvLoader cs) file_path table_name delimiter quote_char
            escape_char create_table encoding work_file_prefix).
Proof.
  unfold load_data.
  apply closes_bind.
  { eapply emits_weaken; [apply _read_headers_emits |]. now intros e ->. }
  intros original_headers.
  apply closes_bind.
  { destruct table_name; repeat emits_step; done. }
  intros table.
  apply closes_bind; [now apply emits_diag |]. intros _.
  apply closes_bind_lift. intros connection_string _.
  apply closes_bind; [now apply emits_store |]. intros _.
  apply closes_bind.
  { destruct create_table; repeat emits_step; try done.
    eapply emits_weaken; [apply _create_table_emits |].
    intros [| | [] []]; done. }
  intros _.
  apply closes_bind; [now apply emits_diag |]. intros _.
  apply closes_bind.
  { eapply emits_weaken; [apply _remove_invalid_characters_emits |].
    intros []; done. }
  intros work_file.
  apply closes_bind; [now apply emits_diag |]. intros _.
  apply closes_bind.
  { eapply emits_weaken; [apply _copy_from_csv_emits |].
    intros [| | [] []]; done. }
  intros _.
  apply closes_bind; [now apply emits_diag |]. intros _.
  apply closes_store_Close.
Qed.

(** C7, as the code has it. [load_data] closes the connection exactly when
    it returns normally: [close] is its last statement and runs only after
    every earlier step has succeeded. When table creation, sanitization or
    the bulk copy raises, the exception leaves [load_data] with the
    connection still open. *)
Theorem connection_closed_iff_load_returns cs file_path table_name delimiter
    quote_char escape_char create_table encoding work_file_prefix st :
  let run := load_data (CsvLoader cs) file_path table_name delimiter
               quote_char escape_char create_table encoding work_file_prefix
               st in
  existsb is_closed (new_events st run.2) = is_ok run.1.
Proof.
  cbn zeta.
  apply (runs_new_events _ (fun r new => existsb is_closed new = is_ok r)).
  apply load_data_closes.
Qed.


(** *** Reading the header *)

Lemma bind_run {A B} (m : M A) (k : A -> M B) (st : state) :
  (m ≫= k) st
  = match m st with
    | (Ok a, st') => k a st'
    | (Raise e, st') => (Raise e, st')
    end.
Proof. reflexivity. Qed.

(** An exception raised while the header is read leaves [load_data] as it
    is, in the state the read left. *)
Lemma load_data_header_failure cs file_path table_name delimiter quote_char
    escape_char create_table encoding work_file_prefix st err st1 :
  _read_headers file_path delimiter quote_char
    (header_escape_char quote_char escape_char) encoding st
  = (Raise err, st1) ->
  load_data (CsvLoader cs) file_path table_name delimiter quote_char
    escape_char create_table encoding work_file_prefix st
  = (Raise err, st1).
Proof.
  intros H. unfold load_data. rewrite bind_run.
  fold (header_escape_char quote_char escape_char). now rewrite H.
Qed.

(** The header read of a file that opens, with a dialect the reader
    accepts: it fails exactly when the text is empty or its first record
    does not parse. *)
Lemma _read_headers_opened file_path delimiter quote_char escape_char
    encoding st raw text :
  open_error env (fs st) file_path (TextRead encoding) = None ->
  fs st !! file_path = Some raw ->
  csv_reader_error env delimiter quote_char escape_char = None ->
  read_text env encoding raw = Ok text ->
  _read_headers file_path delimiter quote_char escape_char encoding st
  = (match text with
     | [] => Raise StopIteration
     | _ => csv_first_record env delimiter quote_char escape_char text
     end,
     State (fs st)
           (trace st ++ [EvCsvReader delimiter quote_char escape_char])).
Proof.
  intros Hopen Hfile Hdialect Htext.
  unfold _read_headers. rewrite bind_run. unfold open at 1.
  rewrite Hopen, Hfile. rewrite bind_run. cbn [emit].
  rewrite bind_run. unfold lift at 1. rewrite Hdialect.
  rewrite bind_run. unfold lift at 1. rewrite Htext. reflexivity.
Qed.

(** C6, as the code has it. When the source is empty, [load_data] fails
    with the [StopIteration] that [next(reader)] raises, and when the
    header row does not parse it fails with the exception of the csv
    reader: the code has no [FormatError]. In both cases nothing else has
    been done: the file system is unchanged, so no temporary file was
    written, and the only event is the construction of the reader, so no
    connection was opened and no table created. *)
Theorem header_failure_is_propagated cs file_path table_name delimiter
    quote_char escape_char create_table encoding work_file_prefix st raw text
    err :
  let parsed_with := header_escape_char quote_char escape_char in
  open_error env (fs st) file_path (TextRead encoding) = None ->
  fs st !! file_path = Some raw ->
  csv_reader_error env delimiter quote_char parsed_with = None ->
  read_text env encoding raw = Ok text ->
  match text with
  | [] => StopIteration = err
  | _ => csv_first_record env delimiter quote_char parsed_with text = Raise err
  end ->
  let run := load_data (CsvLoader cs) file_path table_name delimiter
               quote_char escape_char create_table encoding work_file_prefix
               st in
  run.1 = Raise err /\
  fs run.2 = fs st /\
  new_events st run.2 = [EvCsvReader delimiter quote_char parsed_with] /\
  existsb is_store_event (new_events st run.2) = false.
Proof.
  cbn zeta. set (parsed_with := header_escape_char quote_char escape_char).
  intros Hopen Hfile Hdialect Htext Herr.
  match goal with |- context [load_data ?a ?b ?c ?d ?e ?f ?g ?h ?i ?j] =>
    set (run := load_data a b c d e f g h i j) end.
  assert (Hrun : run = (Raise err,
            State (fs st)
              (trace st ++ [EvCsvReader delimiter quote_char parsed_with]))).
  { apply load_data_header_failure.
    rewrite (_read_headers_opened _ _ _ _ _ _ raw text) by done.
    fold parsed_with. destruct text; [now subst err | now rewrite Herr]. }
  rewrite Hrun. unfold new_events. cbn [fst snd fs trace].
  rewrite drop_app_length. done.
Qed.

(** *** The table name *)

Lemma _generate_table_name_raises cs file_path :
  _generate_table_name (CsvLoader cs) file_path
  = Raise (AttributeError "_table_prefix").
Proof. reflexivity. Qed.

(** Called without a table name, [load_data] never gets past the
    generation of one: it ends where the header read has left it, with the
    exception of the read or, when the read has succeeded, with the
    [AttributeError] for [_table_prefix], an attribute that neither
    [__init__] nor the class sets. *)
Lemma load_data_without_table_name cs file_path delimiter quote_char
    escape_char create_table encoding work_file_prefix st :
  let read := _read_headers file_path delimiter quote_char
                (header_escape_char quote_char escape_char) encoding st in
  load_data (CsvLoader cs) file_path None delimiter quote_char escape_char
    create_table encoding work_file_prefix st
  = (match read.1 with
     | Ok _ => Raise (AttributeError "_table_prefix")
     | Raise err => Raise err
     end, read.2).
Proof.
  cbn zeta. unfold load_data. rewrite bind_run.
  fold (header_escape_char quote_char escape_char).
  destruct (_read_headers _ _ _ _ _ st) as [[hs | err] st1]; [| done].
  rewrite bind_run. rewrite bind_run. unfold lift at 1.
  now rewrite _generate_table_name_raises.
Qed.


(** *** The escape character *)

Lemma header_escape_char_stated quote_char escape_char :
  header_escape_char quote_char escape_char
  = stated_header_escape quote_char escape_char.
Proof.
  unfold header_escape_char, stated_header_escape.
  destruct escape_char as [given |]; [| done].
  repeat case_bool_decide; congruence.
Qed.

Lemma copy_from_escape_char_stated quote_char escape_char :
  (forall given, escape_char = Some given -> length given = 1%nat) ->
  copy_from_escape_char quote_char (header_escape_char quote_char escape_char)
  = stated_copy_escape quote_char escape_char.
Proof.
  intros Hchar. rewrite header_escape_char_stated.
  unfold copy_from_escape_char, stated_copy_escape, stated_header_escape.
  destruct escape_char as [given |]; [| done].
  specialize (Hchar given eq_refl).
  case_bool_decide; [done |].
  destruct given; [done |]. reflexivity.
Qed.

Lemma ensures_here {A B} (m : M A) (k : A -> M B) R :
  ensures m R -> (forall a, emits (k a) (fun _ => True)) ->
  ensures (m ≫= k) R.
Proof.
  intros Hm Hk. eapply runs_bind; [exact Hm | done |].
  intros a n1 H1. eapply runs_weaken; [apply Hk |].
  intros r n2 _ _. apply Exists_app. left. now apply H1.
Qed.

Lemma ensures_later {A B} (m : M A) (k : A -> M B) R :
  emits m (fun _ => True) -> (forall a, ensures (k a) R) ->
  ensures (m ≫= k) R.
Proof.
  intros Hm Hk. eapply runs_bind; [exact Hm | done |].
  intros a n1 _. eapply runs_weaken; [apply Hk |].
  intros r n2 H2 Hok. apply Exists_app. right. now apply H2.
Qed.

Lemma ensures_later_lift {A B} (r : result A) (k : A -> M B) R :
  (forall a, r = Ok a -> ensures (k a) R) -> ensures (lift r ≫= k) R.
Proof.
  intros Hk. destruct r as [a | e].
  - apply (Hk a eq_refl).
  - intros st. exists []. now rewrite app_nil_r.
Qed.

Lemma ensures_emit (e : event) (R : event -> Prop) :
  R e -> ensures (emit e) R.
Proof.
  intros He st. exists [e]. split; [done |]. intros _. now constructor.
Qed.

Lemma ensures_store (c : store_call) (R : event -> Prop) :
  R (EvStore c None) -> ensures (store c) R.
Proof.
  intros Hc st. eexists [_]. split; [reflexivity |]. cbn.
  destruct (store_outcome env (trace st) c); [done |].
  intros _. now constructor.
Qed.

(** Any sequence of statements of the pipeline, for a property that
    follows at once from what each method emits. *)
Ltac emits_any :=
  repeat first
    [ emits_step
    | eapply emits_weaken;
      [ first [ apply _read_headers_emits
              | apply _create_table_emits
              | apply _remove_invalid_characters_emits
              | apply _copy_from_csv_emits ]
      | first [ done | intros [| | [] ?]; done ] ] ];
  try done.

Lemma _read_headers_ensures file_path delimiter quote_char escape_char
    encoding :
  ensures (_read_headers file_path delimiter quote_char escape_char encoding)
          is_reader_event.
Proof.
  unfold _read_headers.
  apply ensures_later; [emits_any |]. intros csv_file.
  apply ensures_here; [now apply ensures_emit |]. intros _. emits_any.
Qed.

Lemma _copy_from_csv_ensures cs work_file file_path table_name headers
    delimiter quote_char escape_char encoding :
  ensures (_copy_from_csv (CsvLoader cs) work_file file_path table_name
             headers delimiter quote_char escape_char encoding)
          is_copy_event.
Proof.
  unfold _copy_from_csv.
  apply ensures_later_lift. intros command _.
  apply ensures_later; [emits_any |]. intros _.
  apply ensures_later; [emits_any |]. intros _.
  apply ensures_later; [emits_any |]. intros csv_file.
  apply ensures_here; [now apply ensures_store |]. intros _. emits_any.
Qed.

Lemma load_data_emits_resolved cs file_path table_name delimiter quote_char
    escape_char create_table encoding work_file_prefix :
  (forall given, escape_char = Some given -> length given = 1%nat) ->
  emits (load_data (CsvLoader cs) file_path table_name delimiter quote_char
           escape_char create_table encoding work_file_prefix)
        (escape_resolved delimiter quote_char escape_char).
Proof.
  intros Hchar. unfold load_data.
  fold (header_escape_char quote_char escape_char).
  apply emits_bind.
  { eapply emits_weaken; [apply _read_headers_emits |].
    intros e ->. apply header_escape_char_stated. }
  intros original_headers.
  apply emits_bind; [destruct table_name; emits_any |]. intros table.
  emits_step; [emits_any |].
  emits_step.
  emits_step; [emits_any |].
  emits_step; [destruct create_table; emits_any |].
  do 3 (emits_step; [emits_any |]).
  emits_step; [| emits_any].
  eapply emits_weaken; [apply _copy_from_csv_emits |].
  intros [| | [] o]; try done. cbn.
  rewrite copy_command_closed. intros [= <-].
  rewrite (copy_from_escape_char_stated _ _ Hchar). eauto.
Qed.

Lemma load_data_ensures_reader cs file_path table_name delimiter quote_char
    escape_char create_table encoding work_file_prefix :
  ensures (load_data (CsvLoader cs) file_path table_name delimiter quote_char
             escape_char create_table encoding work_file_prefix)
          is_reader_event.
Proof.
  unfold load_data.
  apply ensures_here; [apply _read_headers_ensures |].
  intros original_headers. destruct table_name; emits_any.
Qed.

Lemma load_data_ensures_copy cs file_path table_name delimiter quote_char
    escape_char create_table encoding work_file_prefix :
  ensures (load_data (CsvLoader cs) file_path table_name delimiter quote_char
             escape_char create_table encoding work_file_prefix)
          is_copy_event.
Proof.
  unfold load_data.
  apply ensures_later; [emits_any |]. intros original_headers.
  apply ensures_later; [destruct table_name; emits_any |]. intros table.
  apply ensures_later; [emits_any |]. intros _.
  apply ensures_later_lift. intros connection_string _.
  apply ensures_later; [emits_any |]. intros _.
  apply ensures_later; [destruct create_table; emits_any |]. intros _.
  apply ensures_later; [emits_any |]. intros _.
  apply ensures_later; [emits_any |]. intros work_file.
  apply ensures_later; [emits_any |]. intros _.
  apply ensures_here; [apply _copy_from_csv_ensures |]. intros _. emits_any.
Qed.

(** Outside the documented domain: an empty string given as escape
    character is not the quote character, yet the COPY command falls back
    to the quote character, the empty string being false. *)
Example empty_escape_string (quote_char : str) :
  quote_char <> [] ->
  header_escape_char quote_char (Some []) = Some [] /\
  copy_from_escape_char quote_char (header_escape_char quote_char (Some []))
  = quote_char.
Proof.
  intros Hq. unfold header_escape_char.
  rewrite bool_decide_eq_false_2 by congruence. done.
Qed.

(** C8. In every run of [load_data] with an escape character that is, when
    given, one character: the csv reader is constructed with no escape
    character when the caller gave none or gave the quote character, and
    with the given one otherwise; the COPY command handed to the store
    names the quote character after ESCAPE in the first two cases and the
    given character otherwise. A run that returns normally has constructed
    the reader and has handed over the command. *)
Theorem escape_char_is_resolved cs file_path table_name delimiter quote_char
    escape_char create_table encoding work_file_prefix st :
  (forall given, escape_char = Some given -> length given = 1%nat) ->
  let run := load_data (CsvLoader cs) file_path table_name delimiter
               quote_char escape_char create_table encoding work_file_prefix
               st in
  Forall (escape_resolved delimiter quote_char escape_char)
         (new_events st run.2) /\
  (is_ok run.1 = true ->
   Exists is_reader_event (new_events st run.2) /\
   Exists is_copy_event (new_events st run.2)).
Proof.
  intros Hchar. cbn zeta. split; [| intros Hok; split; revert Hok].
  - apply (runs_new_events _ (fun _ new => Forall _ new)).
    now apply load_data_emits_resolved.
  - apply (runs_new_events _ (fun r new => is_ok r = true -> Exists _ new)).
    apply load_data_ensures_reader.
  - apply (runs_new_events _ (fun r new => is_ok r = true -> Exists _ new)).
    apply load_data_ensures_copy.
Qed.


(** *** The sanitized file *)

Lemma diagnostics_run (ds : list diagnostic) (st : state) :
  foldr (fun d k => diag d;; k) (mret tt) ds st
  = (Ok tt, State (fs st) (trace st ++ map EvDiag ds)).
Proof.
  revert st. induction ds as [| d ds IH]; intros [files events].
  - cbn. now rewrite app_nil_r.
  - cbn [foldr]. rewrite bind_run. unfold diag at 1, emit at 1.
    rewrite IH. cbn. now rewrite <- app_assoc.
Qed.

(** [_remove_invalid_characters] on a file that opens, with a temporary
    name that opens and is not the name of the input: it returns the
    temporary name, and the file of that name holds the input mapped byte
    by byte. *)
Lemma _remove_invalid_characters_writes file_path work_file_prefix st
    (content : bytes) :
  let work_file := mktemp env (fs st) (py ".csv") work_file_prefix in
  let run := _remove_invalid_characters file_path work_file_prefix st in
  open_error env (fs st) file_path BinaryRead = None ->
  fs st !! file_path = Some content ->
  open_error env (fs st) work_file BinaryWrite = None ->
  work_file <> file_path ->
  run.1 = Ok work_file /\
  fs run.2 !! work_file = Some (concat (map sanitize_byte content)) /\
  fs run.2 !! file_path = Some content.
Proof.
  cbn zeta. intros Hin Hfile Hout Hfresh.
  set (work_file := mktemp env (fs st) (py ".csv") work_file_prefix) in *.
  assert (Hrun :
    _remove_invalid_characters file_path work_file_prefix st
    = (Ok work_file,
       State (<[work_file := concat (map sanitize_byte content)]>
                (<[work_file := []]> (fs st)))
             (trace st
              ++ map EvDiag (diagnostics (sanitize_loop Loader content))))).
  { unfold _remove_invalid_characters. rewrite bind_run.
    unfold tempfile_mktemp at 1. cbv beta iota. fold work_file.
    rewrite bind_run. unfold open at 1. rewrite Hin, Hfile.
    rewrite bind_run. unfold open at 1. cbn [fs trace]. rewrite Hout.
    rewrite bool_decide_eq_false_2 by done.
    rewrite bind_run, diagnostics_run. rewrite bind_run.
    unfold write_file at 1. cbn [fs trace].
    now destruct (sanitize_loop_written Loader content) as [-> ->]. }
  rewrite Hrun. cbn [fst snd fs].
  split; [done |]. split.
  - apply lookup_insert_eq.
  - now rewrite !lookup_insert_ne.
Qed.

(** *** Empty column names *)

(** Once the header is read and a table name is given, [load_data] goes on
    to connect to the store. *)
Lemma load_data_connects cs file_path table delimiter quote_char escape_char
    create_table encoding work_file_prefix st hs st1 :
  _read_headers file_path delimiter quote_char
    (header_escape_char quote_char escape_char) encoding st
  = (Ok hs, st1) ->
  Exists is_connect_event
    (new_events st
       (load_data (CsvLoader cs) file_path (Some table) delimiter quote_char
          escape_char create_table encoding work_file_prefix st).2).
Proof.
  intros Hread.
  destruct (_read_headers_emits file_path delimiter quote_char
              (header_escape_char quote_char escape_char) encoding st)
    as (n0 & Hn0 & _).
  rewrite Hread in Hn0. cbn [snd] in Hn0.
  unfold load_data. rewrite bind_run.
  fold (header_escape_char quote_char escape_char). rewrite Hread.
  rewrite bind_run.
  change ((mret table : M str) st1) with (Ok table, st1). cbv beta iota.
  rewrite bind_run. unfold diag at 1, emit at 1. cbv beta iota.
  rewrite bind_run.
  change (getattr (CsvLoader cs) "_connection_string") with (Ok cs).
  unfold lift at 1. cbv beta iota.
  rewrite bind_run. unfold store at 1. cbn [fs trace]. unfold new_events.
  destruct (store_outcome env _ (Connect cs)) as [err |].
  - cbn [snd trace]. rewrite Hn0, <- !app_assoc, drop_app_length.
    apply Exists_app. right. apply Exists_app. right. now constructor.
  - lazymatch goal with
    | |- context [trace (?m ?s).2] =>
        assert (Hm : emits m (fun _ => True)) by emits_any;
        destruct (Hm s) as (n & Hn & _)
    end.
    rewrite Hn. cbn [trace]. rewrite Hn0, <- !app_assoc, drop_app_length.
    apply Exists_app. right. apply Exists_app. right.
    apply Exists_app. left. now constructor.
Qed.

(** C5, as the code has it. A header whose normalized form is empty raises
    nothing: the empty string stays in the column list at the position of
    the header, the column list of the CREATE TABLE statement carries the
    empty identifier between double quotes there, and [load_data], given a
    table name, goes on to connect to the store. *)
Theorem empty_column_name_is_kept cs file_path table delimiter quote_char
    escape_char create_table encoding work_file_prefix st hs st1 (i : nat)
    (h : str) :
  _read_headers file_path delimiter quote_char
    (header_escape_char quote_char escape_char) encoding st
  = (Ok hs, st1) ->
  hs !! i = Some h ->
  _simplify_text h = [] ->
  let run := load_data (CsvLoader cs) file_path (Some table) delimiter
               quote_char escape_char create_table encoding work_file_prefix
               st in
  _normalize_headers hs !! i = Some [] /\
  (exists columns,
     create_columns (CsvLoader cs) (_normalize_headers hs) = Ok columns /\
     columns !! i = Some (typed (quoted []))) /\
  Exists is_connect_event (new_events st run.2).
Proof.
  intros Hread Hi Hempty. cbn zeta.
  assert (Hcol : _normalize_headers hs !! i = Some []).
  { unfold _normalize_headers. now rewrite list_lookup_fmap, Hi, <- Hempty. }
  split; [exact Hcol |]. split.
  - eexists. split; [apply create_columns_typed |].
    change ((typed <$> (quoted <$> _normalize_headers hs)) !! i
            = Some (typed (quoted []))).
    rewrite list_lookup_fmap.
    rewrite (list_lookup_fmap quoted (_normalize_headers hs) i).
    exact (f_equal (fun o : option str => typed <$> (quoted <$> o)) Hcol).
  - eapply load_data_connects, Hread.
Qed.

(** ** Further properties of the sanitizer *)

Lemma sanitize_byte_clean (b : byte) :
  forallb is_clean (sanitize_byte b) = true.
Proof.
  unfold sanitize_byte, is_clean.
  destruct (Byte.eqb b xc9) eqn:E1; [reflexivity |].
  destruct (Byte.eqb b x00) eqn:E2; [reflexivity |].
  cbn. now rewrite E1, E2.
Qed.

Lemma sanitize_byte_of_clean (b : byte) :
  is_clean b = true -> sanitize_byte b = [b].
Proof.
  unfold sanitize_byte, is_clean.
  destruct (Byte.eqb b xc9); [done |]. now destruct (Byte.eqb b x00).
Qed.

Lemma sanitize_clean (input : bytes) :
  forallb is_clean input = true -> concat (map sanitize_byte input) = input.
Proof.
  induction input as [| b rest IH]; [done |].
  cbn [forallb map concat]. intros [Hb Hrest]%andb_prop.
  now rewrite (sanitize_byte_of_clean b Hb), IH.
Qed.

Lemma sanitized_is_clean (input : bytes) :
  forallb is_clean (concat (map sanitize_byte input)) = true.
Proof.
  induction input as [| b rest IH]; [done |].
  cbn [map concat]. now rewrite forallb_app, sanitize_byte_clean, IH.
Qed.

Lemma loop_output_clean (p : program) (input : bytes) :
  forallb is_clean (written (sanitize_loop p input)) = true.
Proof.
  destruct (sanitize_loop_written p input) as [_ ->].
  apply sanitized_is_clean.
Qed.

Lemma sanitize_chunk_diagnostics (p : program) (b : byte) :
  sanitize_chunk p [b]
  = Ok (sanitize_byte b, if is_clean b then [] else [diagnostic_of p b]).
Proof.
  unfold sanitize_chunk, sanitize_byte, is_clean, diagnostic_of.
  rewrite branch_of_single.
  destruct (Byte.eqb b xc9); [now destruct p |].
  destruct (Byte.eqb b x00); now destruct p.
Qed.

Lemma loop_diagnostics (p : program) (input : bytes) :
  diagnostics (sanitize_loop p input)
  = map (diagnostic_of p) (List.filter (fun b => negb (is_clean b)) input)
    ++ end_of_file p.
Proof.
  induction input as [| b rest IH]; [now destruct p |].
  cbn [sanitize_loop]. rewrite sanitize_chunk_diagnostics.
  cbn [diagnostics List.filter]. rewrite IH.
  now destruct (is_clean b).
Qed.

Lemma loop_on_clean_input (p : program) (input : bytes) :
  forallb is_clean input = true ->
  written (sanitize_loop p input) = input /\
  diagnostics (sanitize_loop p input) = end_of_file p.
Proof.
  intros Hclean. split.
  - destruct (sanitize_loop_written p input) as [_ ->].
    now apply sanitize_clean.
  - rewrite loop_diagnostics.
    replace (List.filter (fun b => negb (is_clean b)) input) with (@nil byte);
      [done |].
    induction input as [| b rest IH]; [done |].
    cbn [forallb] in Hclean. apply andb_prop in Hclean as [Hb Hrest].
    cbn [List.filter]. rewrite Hb. cbn. now apply IH.
Qed.

(** X1. The loop of either program never writes a 0x00 or a 0xC9 byte. *)
Theorem sanitizer_output_is_clean (p : program) (input : bytes) :
  forallb is_clean (written (sanitize_loop p input)) = true.
Proof. apply loop_output_clean. Qed.

(** X2. The loop reports each byte it repairs or drops, once and in the
    order of the input, and nothing else but the end of the file in
    csvfixer. *)
Theorem sanitizer_reports_each_change (p : program) (input : bytes) :
  diagnostics (sanitize_loop p input)
  = map (diagnostic_of p) (List.filter (fun b => negb (is_clean b)) input)
    ++ end_of_file p.
Proof. apply loop_diagnostics. Qed.

(** X3. A file with no 0x00 and no 0xC9 byte goes through unchanged, and
    nothing is reported about its bytes. *)
Theorem clean_input_is_unchanged (p : program) (input : bytes) :
  forallb is_clean input = true ->
  written (sanitize_loop p input) = input /\
  diagnostics (sanitize_loop p input) = end_of_file p.
Proof. apply loop_on_clean_input. Qed.

(** X4. Sanitizing twice is sanitizing once: the loop of either program leaves
    the output of a loop as it is, and has nothing to repair in it. *)
Theorem sanitizer_is_idempotent (p q : program) (input : bytes) :
  let once := written (sanitize_loop p input) in
  written (sanitize_loop q once) = once /\
  diagnostics (sanitize_loop q once) = end_of_file q.
Proof.
  cbn zeta. apply loop_on_clean_input, loop_output_clean.
Qed.

(** X5. The output for a stream is the output for its first part followed by
    the output for the rest, wherever the stream is cut. *)
Theorem sanitizer_cuts_anywhere (p : program) (first rest : bytes) :
  written (sanitize_loop p (first ++ rest))
  = written (sanitize_loop p first) ++ written (sanitize_loop p rest).
Proof.
  destruct (sanitize_loop_written p (first ++ rest)) as [_ ->].
  destruct (sanitize_loop_written p first) as [_ ->].
  destruct (sanitize_loop_written p rest) as [_ ->].
  now rewrite map_app, concat_app.
Qed.

(** ** Further properties of the normalizer *)

Lemma canonical_identifier_chars (u : bool) (s : str) :
  canonical u s = true -> map ascii_lower s = s ->
  forallb is_identifier_char s = true.
Proof.
  revert u. induction s as [| c rest IH]; intros u Hc Hl; [done |].
  cbn [canonical map forallb] in *. injection Hl as Hl1 Hl2.
  destruct (is_alnum c) eqn:Halnum.
  - rewrite (IH false Hc Hl2), andb_true_r.
    revert Halnum Hl1. unfold is_alnum, ascii_lower, is_identifier_char.
    code_point_cases.
  - apply andb_prop in Hc as [Hc Hrest]. apply andb_prop in Hc as [Hc _].
    rewrite (IH true Hrest Hl2), andb_true_r.
    unfold is_identifier_char. rewrite Hc. apply orb_true_r.
Qed.

Lemma canonical_no_leading_underscore (s : str) :
  canonical true s = true -> startswith s [underscore] = false.
Proof.
  destruct s as [| c rest]; [done |]. cbn [canonical startswith].
  destruct (N.eqb_spec c underscore) as [-> | _]; [| done].
  now rewrite is_alnum_underscore.
Qed.

Lemma canonical_no_double_underscore (u : bool) (s : str) :
  canonical u s = true -> no_double_underscore s = true.
Proof.
  revert u. induction s as [| c rest IH]; intros u Hc; [done |].
  cbn [canonical no_double_underscore] in *.
  destruct (is_alnum c) eqn:Halnum.
  - rewrite (IH false Hc), andb_true_r. destruct rest as [| d rest']; [done |].
    destruct (N.eqb_spec c underscore) as [-> | _]; [| done].
    now rewrite is_alnum_underscore in Halnum.
  - apply andb_prop in Hc as [_ Hrest].
    rewrite (IH true Hrest), andb_true_r.
    destruct rest as [| d rest']; [done |].
    cbn [canonical] in Hrest.
    destruct (N.eqb_spec d underscore) as [-> | _];
      [| now rewrite andb_false_r].
    now rewrite is_alnum_underscore in Hrest.
Qed.

(** X6. A normalized name is made of digits, lower-case letters and
    underscores only, does not start with an underscore and has no two
    underscores in a row; in particular it holds no double quote, comma or
    blank. *)
Theorem simplified_text_is_an_identifier (text : str) :
  let name := _simplify_text text in
  forallb is_identifier_char name = true /\
  startswith name [underscore] = false /\
  no_double_underscore name = true.
Proof.
  cbn zeta. destruct (_simplify_text_shape text) as [Hc Hl].
  split; [now apply (canonical_identifier_chars true) |].
  split; [now apply canonical_no_leading_underscore |].
  now apply (canonical_no_double_underscore true).
Qed.

Lemma filter_alnum_sub_runs (u : bool) (s : str) :
  List.filter is_alnum (sub_runs u s) = List.filter is_alnum s.
Proof.
  revert u. induction s as [| c rest IH]; intros u; [done |].
  cbn [sub_runs List.filter]. destruct (is_alnum c) eqn:Hc.
  - cbn [List.filter]. now rewrite Hc, IH.
  - destruct u; [apply IH |].
    cbn [List.filter]. rewrite is_alnum_underscore. apply IH.
Qed.

Lemma filter_alnum_map_lower (s : str) :
  List.filter is_alnum (map ascii_lower s)
  = map ascii_lower (List.filter is_alnum s).
Proof.
  induction s as [| c rest IH]; [done |].
  cbn [map List.filter]. rewrite is_alnum_lower.
  destruct (is_alnum c); cbn [map]; now rewrite IH.
Qed.

Lemma filter_alnum_simplify (text : str) :
  List.filter is_alnum (_simplify_text text)
  = map ascii_lower (List.filter is_alnum text).
Proof.
  unfold _simplify_text, re_sub_nonalnum.
  rewrite (lower_canonical _ _ (sub_runs_canonical false text)).
  rewrite <- (filter_alnum_sub_runs false text), <- filter_alnum_map_lower.
  destruct (map ascii_lower (sub_runs false text)) as [| c rest]; [done |].
  cbn [startswith]. rewrite andb_true_r.
  destruct (N.eqb_spec c underscore) as [-> | _]; [| done].
  cbn [drop List.filter]. now rewrite is_alnum_underscore.
Qed.

(** X7. Normalization keeps the letters and digits of a text, all of them
    and in their order, in lower case: whatever it removes or replaces is
    outside [0-9a-zA-Z]. *)
Theorem simplified_text_keeps_alphanumerics (text : str) :
  List.filter is_alnum (_simplify_text text)
  = map ascii_lower (List.filter is_alnum text).
Proof. apply filter_alnum_simplify. Qed.

Lemma sub_runs_no_alnum (u : bool) (s : str) :
  forallb (fun c => negb (is_alnum c)) s = true ->
  sub_runs u s = if u then [] else match s with [] => [] | _ => [underscore] end.
Proof.
  revert u. induction s as [| c rest IH]; intros u H; [now destruct u |].
  cbn [forallb] in H. apply andb_prop in H as [Hc Hrest].
  apply negb_true_iff in Hc. cbn [sub_runs]. rewrite Hc.
  rewrite (IH true Hrest). now destruct u.
Qed.

Lemma no_alnum_filter (s : str) :
  List.filter is_alnum s = [] ->
  forallb (fun c => negb (is_alnum c)) s = true.
Proof.
  induction s as [| c rest IH]; [done |].
  cbn [List.filter forallb]. destruct (is_alnum c); [done |]. exact IH.
Qed.

(** X8. The normalized name is empty exactly when the text has no letter
    and no digit. *)
Theorem simplified_text_empty_iff_no_alphanumeric (text : str) :
  bool_decide (_simplify_text text = [])
  = forallb (fun c => negb (is_alnum c)) text.
Proof.
  destruct (forallb (fun c => negb (is_alnum c)) text) eqn:Hall.
  - apply bool_decide_eq_true_2.
    unfold _simplify_text, re_sub_nonalnum.
    rewrite (sub_runs_no_alnum false text Hall). now destruct text.
  - apply bool_decide_eq_false_2. intros Hempty.
    pose proof (filter_alnum_simplify text) as Hf. rewrite Hempty in Hf.
    cbn in Hf. symmetry in Hf. apply map_eq_nil in Hf.
    apply no_alnum_filter in Hf. congruence.
Qed.

(** ** Further properties of the pipeline *)

Lemma _create_table_run cs headers table_name st :
  let calls :=
    call_sequence env (trace st)
      [Cursor;
       Execute (py "CREATE TABLE IF NOT EXISTS " ++ table_name ++ py " ("
                ++ join (py ",") (map typed (map quoted headers)) ++ py ");");
       Commit; CursorClose] in
  _create_table (CsvLoader cs) headers table_name st
  = (result_of calls.2, State (fs st) (trace st ++ calls.1)).
Proof.
  cbn zeta. destruct st as [files events]. unfold _create_table.
  rewrite bind_run. unfold lift at 1. rewrite create_columns_typed.
  cbv beta iota.
  rewrite bind_run. unfold store at 1. cbn [fs trace call_sequence].
  destruct (store_outcome env events Cursor) as [err |]; [done |].
  rewrite bind_run. unfold lift at 1.
  change (getattr (CsvLoader cs) "CREATE_STMT") with (Ok (VStr CREATE_STMT)).
  cbv beta iota. rewrite bind_run. unfold lift at 1.
  change (call_format (VStr CREATE_STMT)
            [VStr table_name;
             VStr (join (py ",") (map typed (map quoted headers)))])
    with (Ok (py "CREATE TABLE IF NOT EXISTS " ++ table_name ++ py " ("
              ++ join (py ",") (map typed (map quoted headers)) ++ py ");")).
  cbv beta iota. rewrite bind_run. unfold store at 1. cbn [fs trace].
  destruct (store_outcome env _ (Execute _)) as [err |];
    [cbn; now rewrite <- !app_assoc |].
  rewrite bind_run. unfold store at 1. cbn [fs trace].
  destruct (store_outcome env _ Commit) as [err |];
    [cbn; now rewrite <- !app_assoc |].
  unfold store. cbn [fs trace].
  destruct (store_outcome env _ CursorClose) as [err |];
    cbn; now rewrite <- !app_assoc.
Qed.

(** X9. [_create_table] asks the store for a cursor, executes the CREATE
    TABLE IF NOT EXISTS statement built from the table name and the quoted
    headers, commits and closes the cursor, in this order and stopping at
    the first call that raises, whose exception it lets through: when the
    statement or the commit fails the cursor is left open. It changes no
    file. *)
Theorem create_table_protocol cs headers table_name st :
  let statement :=
    py "CREATE TABLE IF NOT EXISTS " ++ table_name ++ py " ("
    ++ join (py ",") (map typed (map quoted headers)) ++ py ");" in
  let calls :=
    call_sequence env (trace st)
      [Cursor; Execute statement; Commit; CursorClose] in
  let run := _create_table (CsvLoader cs) headers table_name st in
  run.1 = result_of calls.2 /\
  new_events st run.2 = calls.1 /\
  fs run.2 = fs st.
Proof.
  cbn zeta. rewrite _create_table_run.
  cbn [fst snd fs trace]. unfold new_events. cbn [trace].
  now rewrite drop_app_length.
Qed.

(** X10. [_remove_invalid_characters] on an input that opens, with a
    temporary name that opens and is not the name of the input: it returns
    the temporary name, the file of that name then holds the input mapped
    byte by byte by the sanitizer, and the input file is as it was. *)
Theorem sanitized_copy_is_written file_path work_file_prefix st
    (content : bytes) :
  let work_file := mktemp env (fs st) (py ".csv") work_file_prefix in
  let run := _remove_invalid_characters file_path work_file_prefix st in
  open_error env (fs st) file_path BinaryRead = None ->
  fs st !! file_path = Some content ->
  open_error env (fs st) work_file BinaryWrite = None ->
  work_file <> file_path ->
  run.1 = Ok work_file /\
  fs run.2 !! work_file = Some (concat (map sanitize_byte content)) /\
  fs run.2 !! file_path = Some content.
Proof. apply _remove_invalid_characters_writes. Qed.

(** X11. When the input file is missing, or the input or the temporary
    file cannot be opened, [_remove_invalid_characters] raises the error
    of that [open] ([FileNotFoundError] for a missing input) and leaves
    everything as it was: no file is created or changed and nothing is
    logged. *)
Theorem sanitizer_open_failure file_path work_file_prefix st err :
  (match open_error env (fs st) file_path BinaryRead with
   | Some e => Some e
   | None =>
       match fs st !! file_path with
       | None => Some FileNotFoundError
       | Some _ =>
           open_error env (fs st)
             (mktemp env (fs st) (py ".csv") work_file_prefix) BinaryWrite
       end
   end) = Some err ->
  _remove_invalid_characters file_path work_file_prefix st = (Raise err, st).
Proof.
  intros H. unfold _remove_invalid_characters. rewrite bind_run.
  unfold tempfile_mktemp at 1. cbv beta iota.
  rewrite bind_run. unfold open at 1.
  destruct (open_error env (fs st) file_path BinaryRead) as [e |];
    [now injection H as -> |].
  destruct (fs st !! file_path) as [content |]; [| now injection H as <-].
  rewrite bind_run. unfold open at 1. now rewrite H.
Qed.



Lemma load_data_emits_vocabulary cs file_path table_name delimiter quote_char
    escape_char create_table encoding work_file_prefix :
  emits (load_data (CsvLoader cs) file_path table_name delimiter quote_char
           escape_char create_table encoding work_file_prefix)
        (store_vocabulary cs create_table).
Proof.
  unfold load_data.
  apply emits_bind.
  { eapply emits_weaken; [apply _read_headers_emits |]. now intros e ->. }
  intros original_headers.
  apply emits_bind; [destruct table_name; emits_any |]. intros table.
  emits_step; [emits_any |].
  emits_step.
  change (getattr (CsvLoader cs) "_connection_string") with (Ok cs) in H.
  injection H as <-.
  emits_step; [emits_any |].
  emits_step.
  { destruct create_table; [| emits_any].
    emits_step; [emits_any |].
    eapply emits_weaken; [apply _create_table_emits |].
    intros [| | [] o]; try done. cbn.
    rewrite create_statement_closed. intros [= <-]. eauto. }
  emits_any.
Qed.

(** X13. Whatever happens in a run of [load_data], it connects with the
    connection string the loader was constructed with, and the only
    statements it executes are CREATE TABLE IF NOT EXISTS statements, none
    at all when [create_table] is false. *)
Theorem load_data_store_vocabulary cs file_path table_name delimiter
    quote_char escape_char create_table encoding work_file_prefix st :
  let run := load_data (CsvLoader cs) file_path table_name delimiter
               quote_char escape_char create_table encoding work_file_prefix
               st in
  Forall (store_vocabulary cs create_table) (new_events st run.2).
Proof.
  cbn zeta. apply (runs_new_events _ (fun _ new => Forall _ new)).
  apply load_data_emits_vocabulary.
Qed.

(** *** The order of the calls *)

(** Sequences of statements again, for properties that deny something of
    every event. *)
Ltac event_cases :=
  first [ done
        | cbn; tauto
        | intros ->; cbn; tauto
        | intros [| | [] ?]; first [done | cbn; tauto] ].

Ltac emits_none :=
  repeat first
    [ emits_step
    | eapply emits_weaken;
      [ first [ apply _read_headers_emits
              | apply _create_table_emits
              | apply _remove_invalid_characters_emits
              | apply _copy_from_csv_emits ]
      | event_cases ] ];
  try event_cases.

Lemma split_after_prefix (C : event -> Prop) (n1 n2 pre post : list event)
    (e : event) :
  Forall (fun x => ~ C x) n1 -> C e -> n1 ++ n2 = pre ++ e :: post ->
  exists pre', pre = n1 ++ pre' /\ n2 = pre' ++ e :: post.
Proof.
  intros Hn1 He. revert pre.
  induction Hn1 as [| x n1 Hx _ IH]; intros pre Heq; [by exists pre |].
  destruct pre as [| y pre].
  - cbn in Heq. injection Heq as -> _. contradiction.
  - cbn in Heq. injection Heq as -> Heq.
    destruct (IH pre Heq) as (pre' & -> & ->). by exists pre'.
Qed.

Lemma precedes_none G C n : Forall (fun x => ~ C x) n -> precedes G C n.
Proof.
  intros Hn pre e post -> He. apply Forall_app in Hn as [_ Hn].
  apply Forall_cons in Hn as [Hn _]. contradiction.
Qed.

Lemma precedes_later G C n1 n2 :
  Forall (fun x => ~ C x) n1 -> precedes G C n2 -> precedes G C (n1 ++ n2).
Proof.
  intros Hn1 Hn2 pre e post Heq He.
  destruct (split_after_prefix C n1 n2 pre post e Hn1 He Heq)
    as (pre' & -> & Hn2').
  apply Exists_app. right. exact (Hn2 pre' e post Hn2' He).
Qed.

Lemma precedes_after G C n1 n2 :
  Forall (fun x => ~ C x) n1 -> Exists G n1 -> precedes G C (n1 ++ n2).
Proof.
  intros Hn1 HG pre e post Heq He.
  destruct (split_after_prefix C n1 n2 pre post e Hn1 He Heq)
    as (pre' & -> & _).
  apply Exists_app. now left.
Qed.

(** The events of [m] are in order. *)
Definition in_order {A} (G C : event -> Prop) (m : M A) : Prop :=
  runs m (fun _ new => precedes G C new).

Lemma in_order_later {A B} G C (m : M A) (k : A -> M B) :
  emits m (fun x => ~ C x) -> (forall a, in_order G C (k a)) ->
  in_order G C (m ≫= k).
Proof.
  intros Hm Hk. eapply runs_bind; [exact Hm | |].
  - intros e n Hn. now apply precedes_none.
  - intros a n1 Hn1. eapply runs_weaken; [apply Hk |].
    intros r n2 Hn2. now apply precedes_later.
Qed.

Lemma in_order_later_lift {A B} G C (r : result A) (k : A -> M B) :
  (forall a, r = Ok a -> in_order G C (k a)) -> in_order G C (lift r ≫= k).
Proof.
  intros Hk. destruct r as [a | e].
  - apply (Hk a eq_refl).
  - intros st. exists []. rewrite app_nil_r. split; [done |].
    now apply precedes_none.
Qed.

Lemma in_order_after {A B} G C (m : M A) (k : A -> M B) :
  emits m (fun x => ~ C x) -> ensures m G ->
  (forall a, emits (k a) (fun _ => True)) ->
  in_order G C (m ≫= k).
Proof.
  intros Hm HG Hk st. unfold mbind, M_bind.
  destruct (Hm st) as (n1 & Ht1 & Hn1).
  destruct (HG st) as (n1' & Ht1' & HG1).
  rewrite Ht1 in Ht1'. apply app_inv_head in Ht1' as <-.
  destruct (m st) as [[a | e] st1]; cbn [fst snd] in *.
  - destruct (Hk a st1) as (n2 & Ht2 & _).
    exists (n1 ++ n2). split; [now rewrite Ht2, Ht1, app_assoc |].
    apply precedes_after; [done |]. now apply HG1.
  - exists n1. split; [done |]. now apply precedes_none.
Qed.

Lemma _create_table_ensures_executed cs headers table_name :
  ensures (_create_table (CsvLoader cs) headers table_name) has_executed.
Proof.
  unfold _create_table.
  apply ensures_later_lift. intros columns _.
  apply ensures_later; [emits_any |]. intros _.
  apply ensures_later_lift. intros template _.
  apply ensures_later_lift. intros statement _.
  apply ensures_here; [now apply ensures_store |]. intros _. emits_any.
Qed.

Lemma _create_table_ensures_committed cs headers table_name :
  ensures (_create_table (CsvLoader cs) headers table_name) has_committed.
Proof.
  unfold _create_table.
  apply ensures_later_lift. intros columns _.
  apply ensures_later; [emits_any |]. intros _.
  apply ensures_later_lift. intros template _.
  apply ensures_later_lift. intros statement _.
  apply ensures_later; [emits_any |]. intros _.
  apply ensures_here; [now apply ensures_store |]. intros _. emits_any.
Qed.

Lemma load_data_copy_after_connect cs file_path table_name delimiter
    quote_char escape_char create_table encoding work_file_prefix :
  in_order has_connected is_copy_call
    (load_data (CsvLoader cs) file_path table_name delimiter quote_char
       escape_char create_table encoding work_file_prefix).
Proof.
  unfold load_data.
  apply in_order_later; [emits_none |]. intros original_headers.
  apply in_order_later; [destruct table_name; emits_none |]. intros table.
  apply in_order_later; [emits_none |]. intros _.
  apply in_order_later_lift. intros connection_string _.
  apply in_order_after;
    [emits_none | now apply ensures_store | intros _; emits_any].
Qed.

Lemma load_data_copy_after_create (G : event -> Prop) cs file_path table_name
    delimiter quote_char escape_char encoding work_file_prefix :
  (forall headers table,
     ensures (_create_table (CsvLoader cs) headers table) G) ->
  in_order G is_copy_call
    (load_data (CsvLoader cs) file_path table_name delimiter quote_char
       escape_char true encoding work_file_prefix).
Proof.
  intros HG. unfold load_data.
  apply in_order_later; [emits_none |]. intros original_headers.
  apply in_order_later; [destruct table_name; emits_none |]. intros table.
  apply in_order_later; [emits_none |]. intros _.
  apply in_order_later_lift. intros connection_string _.
  apply in_order_later; [emits_none |]. intros _.
  apply in_order_after.
  - emits_none.
  - apply ensures_later; [emits_any |]. intros _. apply HG.
  - intros _. emits_any.
Qed.

(** X14. In every run of [load_data], a call of [copy_expert] comes after
    a call of [connect] that has returned and, when [create_table] is set,
    after the CREATE TABLE statement has been executed and committed: the
    copy never starts before the table has been created. *)
Theorem copy_comes_after_create cs file_path table_name delimiter quote_char
    escape_char create_table encoding work_file_prefix st pre e post :
  let run := load_data (CsvLoader cs) file_path table_name delimiter
               quote_char escape_char create_table encoding work_file_prefix
               st in
  new_events st run.2 = pre ++ e :: post ->
  is_copy_call e ->
  Exists has_connected pre /\
  (create_table = true ->
   Exists has_executed pre /\ Exists has_committed pre).
Proof.
  cbn zeta. intros Hsplit He. split; [| intros ->; split].
  - revert pre e post Hsplit He.
    apply (runs_new_events _ (fun _ new => precedes _ _ new)).
    apply load_data_copy_after_connect.
  - revert pre e post Hsplit He.
    apply (runs_new_events _ (fun _ new => precedes _ _ new)).
    apply load_data_copy_after_create, _create_table_ensures_executed.
  - revert pre e post Hsplit He.
    apply (runs_new_events _ (fun _ new => precedes _ _ new)).
    apply load_data_copy_after_create, _create_table_ensures_committed.
Qed.

(** *** The files *)

Lemma keeps_bind {A B} (m : M A) (k : A -> M B) :
  keeps_files m -> (forall a, keeps_files (k a)) -> keeps_files (m ≫= k).
Proof.
  intros Hm Hk st. rewrite bind_run. specialize (Hm st).
  destruct (m st) as [[a | e] st1]; cbn [snd] in *; [| done].
  now rewrite Hk.
Qed.

Lemma keeps_ret {A} (a : A) : keeps_files (mret a : M A).
Proof. done. Qed.

Lemma keeps_lift {A} (r : result A) : keeps_files (lift r).
Proof. done. Qed.

Lemma keeps_emit (e : event) : keeps_files (emit e).
Proof. done. Qed.

Lemma keeps_diag (d : diagnostic) : keeps_files (diag d).
Proof. done. Qed.

Lemma keeps_store (c : store_call) : keeps_files (store c).
Proof. done. Qed.

Lemma keeps_mktemp (suffix prefix : str) :
  keeps_files (tempfile_mktemp suffix prefix).
Proof. done. Qed.

Lemma keeps_open_text (path encoding : str) :
  keeps_files (open path (TextRead encoding)).
Proof. intros st. unfold open. repeat case_match; done. Qed.

Ltac keeps_step :=
  lazymatch goal with
  | |- keeps_files (_ ≫= _) => apply keeps_bind; [| intros ?]
  | |- keeps_files (mret _) => apply keeps_ret
  | |- keeps_files (lift _) => apply keeps_lift
  | |- keeps_files (diag _) => apply keeps_diag
  | |- keeps_files (emit _) => apply keeps_emit
  | |- keeps_files (store _) => apply keeps_store
  | |- keeps_files (open _ (TextRead _)) => apply keeps_open_text
  | |- keeps_files (match ?x with _ => _ end) => destruct x
  end.

Lemma _read_headers_keeps_files file_path delimiter quote_char escape_char
    encoding :
  keeps_files
    (_read_headers file_path delimiter quote_char escape_char encoding).
Proof. unfold _read_headers. repeat keeps_step. Qed.

Lemma _create_table_keeps_files self headers table_name :
  keeps_files (_create_table self headers table_name).
Proof. unfold _create_table. repeat keeps_step. Qed.

Lemma _copy_from_csv_keeps_files self work_file file_path table_name headers
    delimiter quote_char escape_char encoding :
  keeps_files
    (_copy_from_csv self work_file file_path table_name headers delimiter
       quote_char escape_char encoding).
Proof. unfold _copy_from_csv. repeat keeps_step. Qed.

Lemma changes_only_later {A B} name (m : M A) (k : A -> M B) :
  keeps_files m -> (forall a, changes_only name (k a)) ->
  changes_only name (m ≫= k).
Proof.
  intros Hm Hk st. rewrite bind_run. specialize (Hm st).
  destruct (m st) as [[a | e] st1]; cbn [snd] in *; [| now rewrite Hm].
  rewrite <- Hm. apply Hk.
Qed.

Lemma changes_only_before {A B} name (m : M A) (k : A -> M B) :
  changes_only name m -> (forall a, keeps_files (k a)) ->
  changes_only name (m ≫= k).
Proof.
  intros Hm Hk st. rewrite bind_run. specialize (Hm st).
  destruct (m st) as [[a | e] st1]; cbn [snd] in *; [| done].
  now rewrite Hk.
Qed.

Lemma diagnostics_keep_files (ds : list diagnostic) :
  keeps_files (foldr (fun d k => diag d;; k) (mret tt) ds).
Proof. intros st. now rewrite diagnostics_run. Qed.

Lemma _remove_invalid_characters_changes_only file_path work_file_prefix :
  changes_only (fun files => mktemp env files (py ".csv") work_file_prefix)
    (_remove_invalid_characters file_path work_file_prefix).
Proof.
  intros st. unfold _remove_invalid_characters. rewrite bind_run.
  unfold tempfile_mktemp at 1. cbv beta iota.
  set (work_file := mktemp env (fs st) (py ".csv") work_file_prefix).
  rewrite bind_run. unfold open at 1.
  destruct (open_error env (fs st) file_path BinaryRead); [done |].
  destruct (fs st !! file_path) as [content |]; [| done].
  rewrite bind_run. unfold open at 1.
  destruct (open_error env (fs st) work_file BinaryWrite); [done |].
  cbv zeta. rewrite bind_run, diagnostics_run, bind_run.
  unfold write_file at 1. cbn [fs trace].
  destruct (raised _); cbn [snd fs lift mret M_ret];
    now rewrite !delete_insert_eq.
Qed.

Lemma load_data_changes_only self file_path table_name delimiter quote_char
    escape_char create_table encoding work_file_prefix :
  changes_only (fun files => mktemp env files (py ".csv") work_file_prefix)
    (load_data self file_path table_name delimiter quote_char escape_char
       create_table encoding work_file_prefix).
Proof.
  unfold load_data.
  apply changes_only_later; [apply _read_headers_keeps_files |].
  intros original_headers.
  apply changes_only_later; [destruct table_name; repeat keeps_step |].
  intros table.
  apply changes_only_later; [apply keeps_diag |]. intros _.
  apply changes_only_later; [apply keeps_lift |]. intros connection_string.
  apply changes_only_later; [apply keeps_store |]. intros _.
  apply changes_only_later.
  { destruct create_table; [| apply keeps_ret].
    apply keeps_bind; [apply keeps_diag |]. intros _.
    apply _create_table_keeps_files. }
  intros _.
  apply changes_only_later; [apply keeps_diag |]. intros _.
  apply changes_only_before;
    [apply _remove_invalid_characters_changes_only |].
  intros work_file.
  apply keeps_bind; [apply keeps_diag |]. intros _.
  apply keeps_bind; [apply _copy_from_csv_keeps_files |]. intros _.
  repeat keeps_step.
Qed.

(** X15. Whatever happens in a run of [load_data], the only file it
    creates or changes is the one named by [tempfile.mktemp] for the
    suffix [.csv] and the given prefix: every other file, the input among
    them unless [mktemp] returns its very name, is as it was. *)
Theorem load_data_changes_only_the_work_file self file_path table_name
    delimiter quote_char escape_char create_table encoding work_file_prefix
    st :
  let work_file := mktemp env (fs st) (py ".csv") work_file_prefix in
  let run := load_data self file_path table_name delimiter quote_char
               escape_char create_table encoding work_file_prefix st in
  delete work_file (fs run.2) = delete work_file (fs st).
Proof. cbn zeta. apply load_data_changes_only. Qed.

(** *** A run in which nothing fails *)






(** ** Properties of csvfixer.py *)

Lemma fixer_file_run (out_file_name file_name : str)
    (files : gmap str bytes) (content : bytes) :
  (forall f p m, open_error env f p m = None) ->
  files !! file_name = Some content ->
  file_name <> out_file_name ->
  fixer_file out_file_name file_name files
  = FixerRun None
      (<[out_file_name := concat (map sanitize_byte content)]> files)
      ([FileLine file_name out_file_name]
       ++ map LoopLine (diagnostics (sanitize_loop Fixer content))).
Proof.
  intros Hopen Hfile Hne. unfold fixer_file, open. cbn [fs trace].
  rewrite !Hopen, Hfile. cbn [fs].
  rewrite bool_decide_eq_false_2 by congruence.
  destruct (sanitize_loop_written Fixer content) as [-> ->].
  now rewrite insert_insert_eq.
Qed.

Lemma fixer_loop_last (out_file_name : str) (before : list str) (last : str)
    (files : gmap str bytes) (content : bytes) :
  (forall f p m, open_error env f p m = None) ->
  Forall (fun p => is_Some (files !! p) /\ p <> out_file_name) before ->
  files !! last = Some content ->
  last <> out_file_name ->
  let run := fixer_loop out_file_name (before ++ [last]) files in
  fixer_raised run = None /\
  fixer_files run
  = <[out_file_name := concat (map sanitize_byte content)]> files.
Proof.
  cbn zeta. intros Hopen Hbefore Hlast Hne. revert files Hbefore Hlast.
  induction before as [| first before IH]; intros files Hbefore Hlast.
  - cbn [app fixer_loop].
    rewrite (fixer_file_run _ _ _ content) by done. done.
  - apply Forall_cons in Hbefore as [[[c Hc] Hfirst] Hbefore].
    cbn [app fixer_loop].
    rewrite (fixer_file_run _ _ _ c) by done.
    cbn [fixer_raised fixer_files].
    set (files1 := <[out_file_name := concat (map sanitize_byte c)]> files).
    destruct (IH files1) as [Hr Hf].
    + eapply Forall_impl; [exact Hbefore |].
      intros p [Hp Hpne]. split; [| done].
      unfold files1. now rewrite lookup_insert_ne.
    + unfold files1. now rewrite lookup_insert_ne.
    + split; [exact Hr |]. rewrite Hf. unfold files1.
      apply insert_insert_eq.
Qed.

(** X17. csvfixer writes every input file into the same output file,
    which it opens anew for each of them: when all the files open and none
    of them has the name of the output file, the script ends normally and
    the output file holds the sanitized bytes of the last input file only;
    no other file is changed. *)
Theorem csvfixer_keeps_the_last_file (before : list str) (last : str)
    (output_prefix : option str) (files : gmap str bytes) (content : bytes) :
  let out_file_name :=
    mktemp env files (py ".csv") (default (py "out") output_prefix) in
  let run := csvfixer (before ++ [last]) output_prefix files in
  (forall f p m, open_error env f p m = None) ->
  Forall (fun p => is_Some (files !! p) /\ p <> out_file_name) before ->
  files !! last = Some content ->
  last <> out_file_name ->
  fixer_raised run = None /\
  fixer_files run
  = <[out_file_name := concat (map sanitize_byte content)]> files.
Proof.
  cbn zeta. intros Hopen Hbefore Hlast Hne. unfold csvfixer.
  destruct (before ++ [last]) as [| x rest] eqn:Heq.
  { now destruct before. }
  rewrite <- Heq. now apply fixer_loop_last.
Qed.

Lemma fixer_file_missing (out_file_name file_name : str)
    (files : gmap str bytes) :
  open_error env files file_name BinaryRead = None ->
  files !! file_name = None ->
  fixer_file out_file_name file_name files
  = FixerRun (Some FileNotFoundError) files
      [FileLine file_name out_file_name].
Proof.
  intros Hopen Hfile. unfold fixer_file, open. cbn [fs trace].
  now rewrite Hopen, Hfile.
Qed.

(** X18. When its first input file is missing, csvfixer ends with
    [FileNotFoundError] after the line that names the files: it has
    written nothing, the output file is not even created, and the files
    after the missing one are not looked at. *)
Theorem csvfixer_missing_input (first : str) (rest : list str)
    (output_prefix : option str) (files : gmap str bytes) :
  let out_file_name :=
    mktemp env files (py ".csv") (default (py "out") output_prefix) in
  open_error env files first BinaryRead = None ->
  files !! first = None ->
  csvfixer (first :: rest) output_prefix files
  = FixerRun (Some FileNotFoundError) files [FileLine first out_file_name].
Proof.
  cbn zeta. intros Hopen Hfile. unfold csvfixer. cbn [fixer_loop].
  now rewrite fixer_file_missing.
Qed.

(** ** Failures of [load_data] before the table *)

Lemma _read_headers_missing file_path delimiter quote_char escape_char
    encoding st :
  open_error env (fs st) file_path (TextRead encoding) = None ->
  fs st !! file_path = None ->
  _read_headers file_path delimiter quote_char escape_char encoding st
  = (Raise FileNotFoundError, st).
Proof.
  intros Hopen Hfile. unfold _read_headers. rewrite bind_run.
  unfold open at 1. now rewrite Hopen, Hfile.
Qed.

(** X19. On a file that does not exist, [load_data] raises
    [FileNotFoundError] and has done nothing at all: no event, no file
    changed, no connection. *)
Theorem load_data_missing_file cs file_path table_name delimiter quote_char
    escape_char create_table encoding work_file_prefix st :
  open_error env (fs st) file_path (TextRead encoding) = None ->
  fs st !! file_path = None ->
  load_data (CsvLoader cs) file_path table_name delimiter quote_char
    escape_char create_table encoding work_file_prefix st
  = (Raise FileNotFoundError, st).
Proof.
  intros Hopen Hfile.
  apply load_data_header_failure. now apply _read_headers_missing.
Qed.

Lemma load_data_connect_raises cs file_path table delimiter quote_char
    escape_char create_table encoding work_file_prefix st hs st1 err :
  let connecting := trace st1 ++ [EvDiag (Log Info MsgConnecting)] in
  _read_headers file_path delimiter quote_char
    (header_escape_char quote_char escape_char) encoding st
  = (Ok hs, st1) ->
  store_outcome env connecting (Connect cs) = Some err ->
  load_data (CsvLoader cs) file_path (Some table) delimiter quote_char
    escape_char create_table encoding work_file_prefix st
  = (Raise err,
     State (fs st1) (connecting ++ [EvStore (Connect cs) (Some err)])).
Proof.
  cbn zeta. intros Hread Hconnect.
  unfold load_data. rewrite bind_run.
  fold (header_escape_char quote_char escape_char). rewrite Hread.
  rewrite bind_run. cbn [mret M_ret]. cbv beta iota.
  rewrite bind_run. unfold diag at 1, emit at 1. cbv beta iota.
  rewrite bind_run. unfold lift at 1.
  change (getattr (CsvLoader cs) "_connection_string") with (Ok cs).
  cbv beta iota.
  rewrite bind_run. unfold store at 1. cbn [fs trace].
  now rewrite Hconnect.
Qed.

(** X20. When the connection to the store fails, [load_data] lets the
    exception of [connect] through, after the header has been read and the
    connection announced: no table is created, no file is sanitized or
    written, nothing is copied. *)
Theorem load_data_connect_failure cs file_path table delimiter quote_char
    escape_char create_table encoding work_file_prefix st hs st1 err :
  let connecting := trace st1 ++ [EvDiag (Log Info MsgConnecting)] in
  _read_headers file_path delimiter quote_char
    (header_escape_char quote_char escape_char) encoding st
  = (Ok hs, st1) ->
  store_outcome env connecting (Connect cs) = Some err ->
  load_data (CsvLoader cs) file_path (Some table) delimiter quote_char
    escape_char create_table encoding work_file_prefix st
  = (Raise err,
     State (fs st) (connecting ++ [EvStore (Connect cs) (Some err)])).
Proof.
  cbn zeta. intros Hread Hconnect.
  rewrite (load_data_connect_raises _ _ _ _ _ _ _ _ _ _ hs st1 err) by done.
  pose proof (_read_headers_keeps_files file_path delimiter quote_char
                (header_escape_char quote_char escape_char) encoding st)
    as Hfiles.
  rewrite Hread in Hfiles. cbn [snd] in Hfiles. now rewrite Hfiles.
Qed.

End Pipeline.

(** ** The example world: runs of [load_data] *)

(** C2, at a call without a table name. [load_data] reads the header and
    then raises [AttributeError]: [_generate_table_name] reads
    [self._table_prefix], which no instance and no class attribute
    provides. On an object that has the attribute, with the value of
    [DEFAULT_TABLE_PREFIX], the same function returns the prefix followed
    by the normalized stem of the file name. *)
Theorem load_data_without_table_name_raises :
  load_data no_case_tables (example_env accepting) (CsvLoader example_dsn)
    names_path None DEFAULT_DELIMITER DEFAULT_QUOTE_CHAR None true
    (py "latin-1") (py "out_") example_state
  = (Raise (AttributeError "_table_prefix"),
     State example_fs [EvCsvReader DEFAULT_DELIMITER DEFAULT_QUOTE_CHAR None])
  /\
  _generate_table_name no_case_tables
    (<["_table_prefix" := VStr DEFAULT_TABLE_PREFIX]> (CsvLoader example_dsn))
    names_path
  = Ok (py "csv_names").
Proof. split; vm_compute; reflexivity. Qed.

(** At a header that normalizes to the empty string, [load_data] raises no
    [SchemaError] before it touches the store: it connects and sends a
    CREATE TABLE statement with an empty identifier, and the exception it
    ends with is the one of the store. *)
Lemma empty_column_name_counterexample :
  let run := load_data no_case_tables (example_env rejecting_execute)
               (CsvLoader example_dsn) names_path (Some (py "names"))
               DEFAULT_DELIMITER DEFAULT_QUOTE_CHAR None true (py "latin-1")
               (py "out_") example_state in
  _normalize_headers no_case_tables names_headers = [py "na_ve"; []] /\
  run.1 = Raise (Exn "SyntaxError" "zero-length delimited identifier") /\
  ~ (exists e, run.1 = Raise e /\ exn_class e = "SchemaError"
               /\ existsb is_store_event (trace run.2) = false) /\
  trace run.2
  = [EvCsvReader DEFAULT_DELIMITER DEFAULT_QUOTE_CHAR None;
     EvDiag (Log Info MsgConnecting);
     EvStore (Connect example_dsn) None;
     EvDiag (Log Info (MsgCreatingTable (py "names")));
     EvStore Cursor None;
     EvStore
       (Execute
          (py "CREATE TABLE IF NOT EXISTS names (" ++ quoted (py "na_ve")
           ++ py " varchar," ++ quoted [] ++ py " varchar);"))
       (Some (Exn "SyntaxError" "zero-length delimited identifier"))].
Proof.
  cbn zeta. split; [vm_compute; reflexivity |].
  split; [vm_compute; reflexivity |].
  split; [| vm_compute; reflexivity].
  intros (e & He & Hclass & _). vm_compute in He.
  injection He as <-. discriminate Hclass.
Qed.

Lemma empty_column_name_is_kept_witness :
  let env := example_env rejecting_execute in
  let read := (Ok names_headers,
               State example_fs
                 [EvCsvReader DEFAULT_DELIMITER DEFAULT_QUOTE_CHAR None]) in
  let run := load_data no_case_tables env (CsvLoader example_dsn) names_path
               (Some (py "names")) DEFAULT_DELIMITER DEFAULT_QUOTE_CHAR None
               true (py "latin-1") (py "out_") example_state in
  (_read_headers env names_path DEFAULT_DELIMITER DEFAULT_QUOTE_CHAR
     (header_escape_char DEFAULT_QUOTE_CHAR None) (py "latin-1") example_state
   = read /\
   names_headers !! 1%nat = Some (py "###") /\
   _simplify_text no_case_tables (py "###") = []) /\
  _normalize_headers no_case_tables names_headers !! 1%nat = Some [] /\
  (exists columns,
     create_columns (CsvLoader example_dsn)
       (_normalize_headers no_case_tables names_headers) = Ok columns /\
     columns !! 1%nat = Some (typed (quoted []))) /\
  Exists is_connect_event (new_events example_state run.2).
Proof.
  cbn zeta.
  assert (Hread :
    _read_headers (example_env rejecting_execute) names_path
      DEFAULT_DELIMITER DEFAULT_QUOTE_CHAR
      (header_escape_char DEFAULT_QUOTE_CHAR None) (py "latin-1")
      example_state
    = (Ok names_headers,
       State example_fs
         [EvCsvReader DEFAULT_DELIMITER DEFAULT_QUOTE_CHAR None]))
    by (vm_compute; reflexivity).
  assert (Hi : names_headers !! 1%nat = Some (py "###")) by reflexivity.
  assert (Hempty : _simplify_text no_case_tables (py "###") = [])
    by reflexivity.
  split; [done |].
  exact (empty_column_name_is_kept no_case_tables
           (example_env rejecting_execute) example_dsn names_path
           (py "names") DEFAULT_DELIMITER DEFAULT_QUOTE_CHAR None true
           (py "latin-1") (py "out_") example_state names_headers _ 1%nat
           (py "###") Hread Hi Hempty).
Defined.

(** On an empty source, [load_data] ends with [StopIteration], not with a
    [FormatError]. *)
Lemma empty_source_counterexample :
  let run := load_data no_case_tables (example_env accepting)
               (CsvLoader example_dsn) empty_path (Some (py "names"))
               DEFAULT_DELIMITER DEFAULT_QUOTE_CHAR None true (py "latin-1")
               (py "out_") example_state in
  example_fs !! empty_path = Some [] /\
  run.1 = Raise StopIteration /\
  ~ (exists e, run.1 = Raise e /\ exn_class e = "FormatError").
Proof.
  cbn zeta. split; [vm_compute; reflexivity |].
  split; [vm_compute; reflexivity |].
  intros (e & He & Hclass). vm_compute in He.
  injection He as <-. discriminate Hclass.
Qed.

Lemma header_failure_is_propagated_witness :
  let env := example_env accepting in
  let parsed_with := header_escape_char DEFAULT_QUOTE_CHAR None in
  let run := load_data no_case_tables env (CsvLoader example_dsn) empty_path
               (Some (py "names")) DEFAULT_DELIMITER DEFAULT_QUOTE_CHAR None
               true (py "latin-1") (py "out_") example_state in
  (open_error env (fs example_state) empty_path (TextRead (py "latin-1"))
   = None /\
   fs example_state !! empty_path = Some [] /\
   csv_reader_error env DEFAULT_DELIMITER DEFAULT_QUOTE_CHAR parsed_with
   = None /\
   read_text env (py "latin-1") [] = Ok []) /\
  run.1 = Raise StopIteration /\
  fs run.2 = fs example_state /\
  new_events example_state run.2
  = [EvCsvReader DEFAULT_DELIMITER DEFAULT_QUOTE_CHAR parsed_with] /\
  existsb is_store_event (new_events example_state run.2) = false.
Proof.
  cbn zeta.
  assert (Hfile : fs example_state !! empty_path = Some [])
    by (vm_compute; reflexivity).
  split; [done |].
  exact (header_failure_is_propagated no_case_tables (example_env accepting)
           example_dsn empty_path (Some (py "names")) DEFAULT_DELIMITER
           DEFAULT_QUOTE_CHAR None true (py "latin-1") (py "out_")
           example_state [] [] StopIteration eq_refl Hfile eq_refl eq_refl
           eq_refl).
Defined.

(** When the bulk copy fails, [load_data] ends with the connection open:
    it has connected, and it has not called [close]. *)
Lemma connection_left_open_counterexample :
  let run := load_data no_case_tables (example_env rejecting_copy)
               (CsvLoader example_dsn) names_path (Some (py "names"))
               DEFAULT_DELIMITER DEFAULT_QUOTE_CHAR None false (py "latin-1")
               (py "out_") example_state in
  run.1 = Raise (Exn "UndefinedTable" "relation does not exist") /\
  In (EvStore (Connect example_dsn) None) (trace run.2) /\
  Forall (fun e => forall o, e <> EvStore Close o) (trace run.2) /\
  existsb is_closed (trace run.2) = false.
Proof.
  cbn zeta. split; [vm_compute; reflexivity |].
  split; [vm_compute; tauto |].
  split; [| vm_compute; reflexivity].
  vm_compute. repeat constructor; discriminate.
Qed.

Lemma escape_char_is_resolved_witness :
  let run := load_data no_case_tables (example_env accepting)
               (CsvLoader example_dsn) names_path (Some (py "names"))
               DEFAULT_DELIMITER DEFAULT_QUOTE_CHAR (Some [92]) true
               (py "latin-1") (py "out_") example_state in
  (forall given, Some [92] = Some given -> length given = 1%nat) /\
  Forall (escape_resolved DEFAULT_DELIMITER DEFAULT_QUOTE_CHAR (Some [92]))
         (new_events example_state run.2) /\
  (is_ok run.1 = true ->
   Exists is_reader_event (new_events example_state run.2) /\
   Exists is_copy_event (new_events example_state run.2)).
Proof.
  cbn zeta.
  assert (Hchar : forall given : str,
            Some [92] = Some given -> length given = 1%nat)
    by (intros given [= <-]; reflexivity).
  split; [exact Hchar |].
  exact (escape_char_is_resolved no_case_tables (example_env accepting)
           example_dsn names_path (Some (py "names")) DEFAULT_DELIMITER
           DEFAULT_QUOTE_CHAR (Some [92]) true (py "latin-1") (py "out_")
           example_state Hchar).
Defined.

(** The same run, spelled out. *)
Example escape_char_run :
  let run := load_data no_case_tables (example_env accepting)
               (CsvLoader example_dsn) names_path (Some (py "names"))
               DEFAULT_DELIMITER DEFAULT_QUOTE_CHAR (Some [92]) true
               (py "latin-1") (py "out_") example_state in
  run.1 = Ok tt /\
  fs run.2 !! py "/tmp/out_k3x9q2vb.csv"
  = Some [x4e; x61; x65; x76; x65; x2c; x23; x23; x23; x0a; x31; x2c; x32; x0a]
  /\
  In (EvCsvReader DEFAULT_DELIMITER DEFAULT_QUOTE_CHAR (Some [92]))
     (trace run.2) /\
  In (EvStore
        (CopyExpert
           (py "COPY names (" ++ quoted (py "na_ve") ++ py "," ++ quoted []
            ++ py ") FROM stdin WITH CSV HEADER DELIMITER ',' QUOTE '"
            ++ [dquote] ++ py "' ESCAPE '" ++ [92] ++ py "'")
           [x4e; x61; x65; x76; x65; x2c; x23; x23; x23; x0a; x31; x2c; x32;
            x0a])
        None)
     (trace run.2).
Proof.
  cbn zeta. split; [vm_compute; reflexivity |].
  split; [vm_compute; reflexivity |].
  split; vm_compute; tauto.
Qed.

(** ** Paths and templates: examples *)

Example basename_example :
  basename (py "/data/My File.v2.csv") = py "My File.v2.csv".
Proof. reflexivity. Qed.

Example splitext_example :
  splitext (py "My File.v2.csv") = (py "My File.v2", py ".csv") /\
  splitext (py "dir.d/.bashrc") = (py "dir.d/.bashrc", []) /\
  splitext (py "..a.b") = (py "..a", py ".b").
Proof. repeat split. Qed.

Example format_example :
  format CREATE_STMT [VStr (py "t"); VStr (py "c")]
  = Ok (py "CREATE TABLE IF NOT EXISTS t (c);") /\
  format CREATE_STMT [VStr (py "t")]
  = Raise (IndexError "Replacement index out of range").
Proof. split; reflexivity. Qed.

(** ** The example world: the further properties *)

Lemma clean_input_is_unchanged_witness :
  forallb is_clean [x61; x2c; x62; x0a] = true /\
  written (sanitize_loop Loader [x61; x2c; x62; x0a]) = [x61; x2c; x62; x0a]
  /\
  diagnostics (sanitize_loop Loader [x61; x2c; x62; x0a]) = [].
Proof.
  split; [reflexivity |].
  exact (clean_input_is_unchanged Loader [x61; x2c; x62; x0a] eq_refl).
Defined.

Definition example_work_file : str := py "/tmp/out_k3x9q2vb.csv".

Definition missing_path : str := py "/data/none.csv".

Lemma example_work_file_fresh : example_work_file <> names_path.
Proof. discriminate. Qed.

Lemma sanitized_copy_is_written_witness :
  let env := example_env accepting in
  let run := _remove_invalid_characters env names_path (py "out_")
               example_state in
  (open_error env (fs example_state) names_path BinaryRead = None /\
   fs example_state !! names_path = Some names_csv /\
   open_error env (fs example_state) example_work_file BinaryWrite = None /\
   example_work_file <> names_path) /\
  run.1 = Ok example_work_file /\
  fs run.2 !! example_work_file
  = Some (concat (map sanitize_byte names_csv)) /\
  fs run.2 !! names_path = Some names_csv.
Proof.
  cbn zeta.
  assert (Hfile : fs example_state !! names_path = Some names_csv)
    by (vm_compute; reflexivity).
  split;
    [repeat split; try exact Hfile; exact example_work_file_fresh |].
  exact (sanitized_copy_is_written (example_env accepting) names_path
           (py "out_") example_state names_csv eq_refl Hfile eq_refl
           example_work_file_fresh).
Defined.

Lemma sanitizer_open_failure_witness :
  let env := example_env accepting in
  (match open_error env (fs example_state) missing_path BinaryRead with
   | Some e => Some e
   | None =>
       match fs example_state !! missing_path with
       | None => Some FileNotFoundError
       | Some _ =>
           open_error env (fs example_state)
             (mktemp env (fs example_state) (py ".csv") (py "out_"))
             BinaryWrite
       end
   end) = Some FileNotFoundError /\
  _remove_invalid_characters env missing_path (py "out_") example_state
  = (Raise FileNotFoundError, example_state).
Proof.
  cbn zeta.
  assert (H : (match open_error (example_env accepting) (fs example_state)
                       missing_path BinaryRead with
               | Some e => Some e
               | None =>
                   match fs example_state !! missing_path with
                   | None => Some FileNotFoundError
                   | Some _ =>
                       open_error (example_env accepting) (fs example_state)
                         (mktemp (example_env accepting) (fs example_state)
                            (py ".csv") (py "out_"))
                         BinaryWrite
                   end
               end) = Some FileNotFoundError)
    by (vm_compute; reflexivity).
  split; [exact H |].
  exact (sanitizer_open_failure (example_env accepting) missing_path
           (py "out_") example_state FileNotFoundError H).
Defined.


(** The events of the run of [load_data] on the example file, with a store
    that accepts every call. *)
Definition example_events : list event :=
  new_events example_state
    (load_data no_case_tables (example_env accepting) (CsvLoader example_dsn)
       names_path (Some (py "names")) DEFAULT_DELIMITER DEFAULT_QUOTE_CHAR
       None true (py "latin-1") (py "out_") example_state).2.

Definition example_copy_call : event :=
  EvStore
    (CopyExpert
       (py "COPY names (" ++ quoted (py "na_ve") ++ py "," ++ quoted []
        ++ py ") FROM stdin WITH CSV HEADER DELIMITER ',' QUOTE '"
        ++ [dquote] ++ py "' ESCAPE '" ++ [dquote] ++ py "'")
       [x4e; x61; x65; x76; x65; x2c; x23; x23; x23; x0a; x31; x2c; x32; x0a])
    None.

Lemma copy_comes_after_create_witness :
  let pre := take 14 example_events in
  let post := drop 15 example_events in
  (example_events = pre ++ example_copy_call :: post /\
   is_copy_call example_copy_call) /\
  Exists has_connected pre /\
  Exists has_executed pre /\
  Exists has_committed pre.
Proof.
  cbn zeta.
  assert (Hsplit : example_events
                   = take 14 example_events
                     ++ example_copy_call :: drop 15 example_events)
    by (vm_compute; reflexivity).
  split; [split; [exact Hsplit | exact I] |].
  destruct (copy_comes_after_create no_case_tables (example_env accepting)
              example_dsn names_path (Some (py "names")) DEFAULT_DELIMITER
              DEFAULT_QUOTE_CHAR None true (py "latin-1") (py "out_")
              example_state (take 14 example_events) example_copy_call
              (drop 15 example_events) Hsplit I) as [Hconnected Hcreated].
  split; [exact Hconnected | exact (Hcreated eq_refl)].
Defined.


Lemma csvfixer_keeps_the_last_file_witness :
  let env := example_env accepting in
  let out_file_name := py "/tmp/outk3x9q2vb.csv" in
  let run := csvfixer env [empty_path; names_path] None example_fs in
  ((forall f p m, open_error env f p m = None) /\
   Forall (fun p => is_Some (example_fs !! p) /\ p <> out_file_name)
          [empty_path] /\
   example_fs !! names_path = Some names_csv /\
   names_path <> out_file_name) /\
  fixer_raised run = None /\
  fixer_files run
  = <[out_file_name := concat (map sanitize_byte names_csv)]> example_fs.
Proof.
  cbn zeta.
  assert (Hopen : forall f p m,
            open_error (example_env accepting) f p m = None)
    by reflexivity.
  assert (Hbefore :
    Forall (fun p => is_Some (example_fs !! p)
                     /\ p <> py "/tmp/outk3x9q2vb.csv") [empty_path]).
  { constructor; [| constructor]. split; [| discriminate].
    exists []. vm_compute. reflexivity. }
  assert (Hlast : example_fs !! names_path = Some names_csv)
    by (vm_compute; reflexivity).
  assert (Hne : names_path <> py "/tmp/outk3x9q2vb.csv") by discriminate.
  split; [by repeat split |].
  exact (csvfixer_keeps_the_last_file (example_env accepting) [empty_path]
           names_path None example_fs names_csv Hopen Hbefore Hlast Hne).
Defined.

Lemma csvfixer_missing_input_witness :
  let env := example_env accepting in
  (open_error env example_fs missing_path BinaryRead = None /\
   example_fs !! missing_path = None) /\
  csvfixer env [missing_path; names_path] None example_fs
  = FixerRun (Some FileNotFoundError) example_fs
      [FileLine missing_path (py "/tmp/outk3x9q2vb.csv")].
Proof.
  cbn zeta.
  assert (Hfile : example_fs !! missing_path = None)
    by (vm_compute; reflexivity).
  split; [split; [reflexivity | exact Hfile] |].
  exact (csvfixer_missing_input (example_env accepting) missing_path
           [names_path] None example_fs eq_refl Hfile).
Defined.

Lemma load_data_missing_file_witness :
  let env := example_env accepting in
  (open_error env (fs example_state) missing_path (TextRead (py "utf-8"))
   = None /\
   fs example_state !! missing_path = None) /\
  load_data no_case_tables env (CsvLoader example_dsn) missing_path None
    DEFAULT_DELIMITER DEFAULT_QUOTE_CHAR None true (py "utf-8") (py "out_")
    example_state
  = (Raise FileNotFoundError, example_state).
Proof.
  cbn zeta.
  assert (Hfile : fs example_state !! missing_path = None)
    by (vm_compute; reflexivity).
  split; [split; [reflexivity | exact Hfile] |].
  exact (load_data_missing_file no_case_tables (example_env accepting)
           example_dsn missing_path None DEFAULT_DELIMITER DEFAULT_QUOTE_CHAR
           None true (py "utf-8") (py "out_") example_state eq_refl Hfile).
Defined.

Lemma load_data_connect_failure_witness :
  let env := example_env rejecting_connect in
  let read :=
    State example_fs
      [EvCsvReader DEFAULT_DELIMITER DEFAULT_QUOTE_CHAR None] in
  let refused := Exn "OperationalError" "connection refused" in
  (_read_headers env names_path DEFAULT_DELIMITER DEFAULT_QUOTE_CHAR
     (header_escape_char DEFAULT_QUOTE_CHAR None) (py "latin-1") example_state
   = (Ok names_headers, read) /\
   store_outcome env (trace read ++ [EvDiag (Log Info MsgConnecting)])
     (Connect example_dsn)
   = Some refused) /\
  load_data no_case_tables env (CsvLoader example_dsn) names_path
    (Some (py "names")) DEFAULT_DELIMITER DEFAULT_QUOTE_CHAR None true
    (py "latin-1") (py "out_") example_state
  = (Raise refused,
     State (fs example_state)
       ((trace read ++ [EvDiag (Log Info MsgConnecting)])
        ++ [EvStore (Connect example_dsn) (Some refused)])).
Proof.
  cbn zeta.
  assert (Hread :
    _read_headers (example_env rejecting_connect) names_path
      DEFAULT_DELIMITER DEFAULT_QUOTE_CHAR
      (header_escape_char DEFAULT_QUOTE_CHAR None) (py "latin-1")
      example_state
    = (Ok names_headers,
       State example_fs
         [EvCsvReader DEFAULT_DELIMITER DEFAULT_QUOTE_CHAR None]))
    by (vm_compute; reflexivity).
  split; [split; [exact Hread | reflexivity] |].
  exact (load_data_connect_failure no_case_tables
           (example_env rejecting_connect) example_dsn names_path
           (py "names") DEFAULT_DELIMITER DEFAULT_QUOTE_CHAR None true
           (py "latin-1") (py "out_") example_state names_headers _ _ Hread
           eq_refl).
Defined.
